(** * cwisstable/base.h: feature detection and basic helper macros

    A shallow embedding of [cwisstable/base.h].  The header is a sequence of
    preprocessor conditionals over the macros a toolchain predefines, followed
    by a handful of function-like macros that expand to C statements and
    expressions.  Each object-like macro of the header becomes a function of
    the toolchain; each function-like macro becomes a function of the
    toolchain and of its arguments. *)

From stdpp Require Import gmap strings pretty list.
From Stdlib Require Import ZArith Lia Ascii.
From Stdlib Require HexadecimalString.

Local Open Scope Z_scope.

(** ** The preprocessor's view of a toolchain *)

(** What the header can observe of the toolchain that compiles it: the
    object-like macros defined before the header is read (predefined by the
    compiler or given with [-DNAME=n]; [-DNAME] gives [1]), each with the
    integer its replacement list evaluates to, and the two feature-test
    operators [__has_builtin] and [__has_attribute], which a compiler may or
    may not provide. *)
Record toolchain := {
  predefined : gmap string Z;
  has_builtin : option (string -> bool);
  has_attribute : option (string -> bool)
}.

(** [#ifdef x], [defined(x)]. *)
Definition defined (t : toolchain) (x : string) : bool :=
  bool_decide (is_Some (predefined t !! x)).

(** An identifier inside [#if]: its replacement when it is a macro, and [0]
    when it is not. *)
Definition ident (t : toolchain) (x : string) : Z :=
  default 0 (predefined t !! x).

(** C's integer truth values and the operators the header uses on them. *)
Definition truth (z : Z) : bool := negb (z =? 0).
Definition c_bool (b : bool) : Z := if b then 1 else 0.
Definition c_not (a : Z) : Z := c_bool (negb (truth a)).
Definition c_and (a b : Z) : Z := c_bool (truth a && truth b).
Definition c_or (a b : Z) : Z := c_bool (truth a || truth b).
Definition c_ge (a b : Z) : Z := c_bool (b <=? a).

(** ** Compiler detection macros (lines 60-76) *)

Definition CWISS_IS_CLANG (t : toolchain) : Z :=
  if defined t "__clang__" then 1 else 0.

Definition CWISS_IS_GCCISH (t : toolchain) : Z :=
  if defined t "__GNUC__" then 1 else 0.

Definition CWISS_IS_MSVCISH (t : toolchain) : Z :=
  if defined t "_MSC_VER" then 1 else 0.

Definition CWISS_IS_GCC (t : toolchain) : Z :=
  c_and (CWISS_IS_GCCISH t) (c_not (CWISS_IS_CLANG t)).

Definition CWISS_IS_MSVC (t : toolchain) : Z :=
  c_and (CWISS_IS_MSVCISH t) (c_not (CWISS_IS_CLANG t)).

(** The compilers the header's documentation names: GCC, MSVC, and Clang,
    which may pretend to be GCC (GCC mode) or MSVC (clang-cl). *)
Inductive compiler :=
| GCC
| MSVC
| Clang (gcc_mode msvc_mode : bool).

(** The compiler behind a set of identity macros, read off the header's
    comments: "[CWISS_IS_GCCISH] detects GCC and GCC-mode Clang",
    "[CWISS_IS_MSVCISH] detects MSVC and clang-cl".  So [__GNUC__] without
    [__clang__] is GCC, [_MSC_VER] without [__clang__] is MSVC; a toolchain
    that defines neither family macro nor [__clang__], or both family macros
    without [__clang__], is none of the documented compilers. *)
Definition recognise (t : toolchain) : option compiler :=
  if defined t "__clang__"
  then Some (Clang (defined t "__GNUC__") (defined t "_MSC_VER"))
  else match defined t "__GNUC__", defined t "_MSC_VER" with
       | true, false => Some GCC
       | false, true => Some MSVC
       | _, _ => None
       end.

(** How many of a list of C flags are true. *)
Definition count_true (flags : list Z) : nat :=
  List.length (filter (fun z => truth z = true) flags).

(** ** Instruction-set detection (lines 95-126) *)

Definition CWISS_HAVE_SSE2 (t : toolchain) : Z :=
  match predefined t !! "CWISS_HAVE_SSE2" with
  | Some v => v
  | None =>
      if truth (c_or (c_bool (defined t "__SSE2__"))
                  (c_and (CWISS_IS_MSVCISH t)
                     (c_or (c_bool (defined t "_M_X64"))
                        (c_and (c_bool (defined t "_M_IX86"))
                           (c_ge (ident t "_M_IX86_FP") 2)))))
      then 1 else 0
  end.

Definition CWISS_HAVE_SSSE3 (t : toolchain) : Z :=
  match predefined t !! "CWISS_HAVE_SSSE3" with
  | Some v => v
  | None => if defined t "__SSSE3__" then 1 else 0
  end.

(** What automatic detection alone would give, that is, the [#ifndef] bodies
    of lines 96-102 and 110-114. *)
Definition detect_SSE2 (t : toolchain) : Z :=
  CWISS_HAVE_SSE2
    {| predefined := delete "CWISS_HAVE_SSE2" (predefined t);
       has_builtin := has_builtin t; has_attribute := has_attribute t |}.

Definition detect_SSSE3 (t : toolchain) : Z :=
  CWISS_HAVE_SSSE3
    {| predefined := delete "CWISS_HAVE_SSSE3" (predefined t);
       has_builtin := has_builtin t; has_attribute := has_attribute t |}.

(** The outcome of preprocessing the header: either an [#error] directive
    stops the translation with its diagnostic, or the header is read to its
    end and has pulled in a list of system headers.  The system headers are
    taken to exist: a missing one would stop the translation at its
    [#include], which is not an outcome here. *)
Inductive translation :=
| Halted (diagnostic : string)
| Preprocessed (includes : list string).

Definition base_h (t : toolchain) : translation :=
  let std := ["stdbool.h"; "stdio.h"; "stdlib.h"] in
  let atomic := if defined t "__cplusplus" then ["atomic"] else ["stdatomic.h"] in
  let sse2 := if truth (CWISS_HAVE_SSE2 t) then ["emmintrin.h"] else [] in
  if truth (CWISS_HAVE_SSSE3 t) then
    if truth (c_not (CWISS_HAVE_SSE2 t))
    then Halted "Bad configuration: SSSE3 implies SSE2!"
    else Preprocessed (std ++ atomic ++ sse2 ++ ["tmmintrin.h"])
  else Preprocessed (std ++ atomic ++ sse2).

(** ** Feature-test wrappers (lines 132-147) *)

Definition CWISS_HAVE_CLANG_BUILTIN (t : toolchain) (x : string) : Z :=
  match has_builtin t with
  | Some __has_builtin => c_bool (__has_builtin x)
  | None => 0
  end.

Definition CWISS_HAVE_GCC_ATTRIBUTE (t : toolchain) (x : string) : Z :=
  match has_attribute t with
  | Some __has_attribute => c_bool (__has_attribute x)
  | None => 0
  end.

(** ** The running program *)

(** The line feed that C writes as a backslash followed by [n]. *)
Definition LF : string := String (ascii_of_nat 10) EmptyString.

(** An argument of [fprintf] after the format, as the default argument
    promotions leave it: a string (a [char *] with what it points to), an
    integer of any integer type, a floating value (the bits of its
    representation) or any other pointer. *)
Inductive printf_arg :=
| ArgStr (s : string)
| ArgInt (i : Z)
| ArgFloat (bits : Z)
| ArgPtr (address : Z).

(** Where a formatter is in the format: in ordinary text, just after a
    [%], or after the length modifiers of a conversion. *)
Inductive format_state :=
| Text
| Percent
| Length.

Definition is_length_modifier (c : ascii) : bool :=
  Ascii.eqb c "h" || Ascii.eqb c "l" || Ascii.eqb c "z"
  || Ascii.eqb c "j" || Ascii.eqb c "t".

(** An integer under the conversions [d], [i], [u] and [x]. *)
Definition format_int (c : ascii) (i : Z) : option string :=
  if Ascii.eqb c "d" || Ascii.eqb c "i" then Some (pretty i)
  else if Ascii.eqb c "u" then
    if 0 <=? i then Some (pretty i) else None
  else if Ascii.eqb c "x" then
    if 0 <=? i
    then Some (HexadecimalString.NilZero.string_of_uint
                 (N.to_hex_uint (Z.to_N i)))
    else None
  else None.

(** One formatter to run examples with; the checks are not tied to it (see
    [formatter] below).  Ordinary characters are copied; [%%] is a percent
    sign; [%s] takes a string; [%c] a character code; [%d], [%i], [%u] and
    [%x], with or without length modifiers, take an integer.  [None] is a
    format this formatter has no result for: a conversion it does not
    implement, or one without a matching argument, which is undefined
    behaviour in C.  Arguments left over are ignored, as in C. *)
Fixpoint format_from (st : format_state) (fmt : string)
    (args : list printf_arg) : option string :=
  match fmt with
  | EmptyString =>
      match st with Text => Some EmptyString | _ => None end
  | String c rest =>
      match st with
      | Text =>
          if Ascii.eqb c "%" then format_from Percent rest args
          else String c <$> format_from Text rest args
      | Percent =>
          if Ascii.eqb c "%" then String c <$> format_from Text rest args
          else if is_length_modifier c then format_from Length rest args
          else
            match args with
            | ArgStr s :: args' =>
                if Ascii.eqb c "s"
                then String.append s <$> format_from Text rest args'
                else None
            | ArgInt i :: args' =>
                if Ascii.eqb c "c" then
                  if (0 <=? i) && (i <? 256)
                  then String (ascii_of_N (Z.to_N i))
                         <$> format_from Text rest args'
                  else None
                else
                  text ← format_int c i;
                  String.append text <$> format_from Text rest args'
            | _ => None
            end
      | Length =>
          if is_length_modifier c then format_from Length rest args
          else
            match args with
            | ArgInt i :: args' =>
                text ← format_int c i;
                String.append text <$> format_from Text rest args'
            | _ => None
            end
      end
  end.

Definition format (fmt : string) (args : list printf_arg) : option string :=
  format_from Text fmt args.

(** What the process does to its standard error stream. *)
Inductive event :=
| Write (text : string)
| Flush.

(** Everything written to the stream, in order. *)
Fixpoint written (es : list event) : string :=
  match es with
  | [] => EmptyString
  | Write text :: es' => String.append text (written es')
  | Flush :: es' => written es'
  end.

Section Program.

(** The state of the program that uses the macros: whatever the condition
    and message expressions of a check can read and change. *)
Variable mem : Type.

Record world := World {
  memory : mem;
  stderr : list event
}.

(** A C statement or expression either completes with a value, ends the
    process through [abort()], or has no defined behaviour (here: a call of
    [fprintf] with a format and arguments that the C library has no result
    for). *)
Inductive outcome (A : Type) :=
| Returned (a : A) (w : world)
| Aborted (w : world)
| Undefined.

Definition M (A : Type) : Type := world -> outcome A.

Definition ret {A : Type} (a : A) : M A := fun w => Returned A a w.

Definition bind {A B : Type} (m : M A) (k : A -> M B) : M B :=
  fun w =>
    match m w with
    | Returned _ a w' => k a w'
    | Aborted _ w' => Aborted B w'
    | Undefined _ => Undefined B
    end.

Definition emit (e : event) (w : world) : world :=
  {| memory := memory w; stderr := stderr w ++ [e] |}.

(** The formatting that the C library does inside [fprintf]: from a format,
    its arguments and the memory (which [%s] reads and [%n] writes) to the
    text produced and the memory after, or [None] where the behaviour of
    [fprintf] is undefined.  The checks take the library as a parameter. *)
Definition formatter : Type :=
  string -> list printf_arg -> mem -> option (string * mem).

(** [fprintf(stderr, fmt, args...)] of the library [libc]. *)
Definition fprintf_stderr (libc : formatter) (fmt : string)
    (args : list printf_arg) : M Z :=
  fun w =>
    match libc fmt args (memory w) with
    | Some (text, m) =>
        Returned Z (Z.of_nat (String.length text))
          {| memory := m; stderr := stderr w ++ [Write text] |}
    | None => Undefined Z
    end.

(** [fflush(stderr)]. *)
Definition fflush_stderr : M Z :=
  fun w => Returned Z 0 (emit Flush w).

(** [abort()]. *)
Definition abort {A : Type} : M A := fun w => Aborted A w.

End Program.

Arguments World {mem}.
Arguments memory {mem}.
Arguments stderr {mem}.
Arguments Returned {mem A}.
Arguments Aborted {mem A}.
Arguments Undefined {mem A}.
Arguments ret {mem A}.
Arguments bind {mem A B}.
Arguments emit {mem}.
Arguments fprintf_stderr {mem}.
Arguments fflush_stderr {mem}.
Arguments abort {mem A}.

(** The statement sequencing of C, in stdpp's monad notation:
    [x ← c; k] runs [c], then [k] with its value; [c ;; k] drops the value. *)
#[global] Instance M_ret {mem : Type} : MRet (M mem) := fun A a => ret a.
#[global] Instance M_bind {mem : Type} : MBind (M mem) := fun A B k m => bind m k.

(** ** Checks (lines 159-174) *)

(** [CWISS_CHECK(cond_, ...)] expanded at line [line] of [file] in a program
    linked with the C library [libc]: the condition and the variadic
    arguments (a format and its arguments) are expressions of the caller,
    evaluated where the expansion places them.  The
    [do { ... } while (false)] body runs once; [break] leaves it. *)
Definition CWISS_CHECK {mem : Type} (libc : formatter mem)
    (file : string) (line : Z)
    (cond_ : M mem Z) (va_args : M mem (string * list printf_arg)) : M mem unit :=
  c ← cond_;
  if truth c then mret tt
  else
    fprintf_stderr libc (String.append "CWISS_CHECK failed at %s:%d" LF)
      [ArgStr file; ArgInt line] ;;
    '(fmt, args) ← va_args;
    fprintf_stderr libc fmt args ;;
    fprintf_stderr libc LF [] ;;
    fflush_stderr ;;
    abort.

(** [CWISS_DCHECK]: [((void)0)] under [NDEBUG], otherwise another name for
    [CWISS_CHECK]. *)
Definition CWISS_DCHECK {mem : Type} (libc : formatter mem) (t : toolchain)
    (file : string) (line : Z)
    (cond_ : M mem Z) (va_args : M mem (string * list printf_arg)) : M mem unit :=
  if defined t "NDEBUG" then mret tt
  else CWISS_CHECK libc file line cond_ va_args.

(** A statement executed [n] times in a row. *)
Fixpoint repeat_stmt {mem : Type} (n : nat) (stmt : M mem unit) : M mem unit :=
  match n with
  | O => mret tt
  | S n' => stmt ;; repeat_stmt n' stmt
  end.

(** ** Branch-prediction hints (lines 178-184) *)

(** [__builtin_expect(exp, c)] has the value of [exp]. *)
Definition __builtin_expect (exp c : Z) : Z := exp.

(** The condition of the [#if] on line 178. *)
Definition hint_uses_builtin (t : toolchain) : bool :=
  truth (c_or (CWISS_HAVE_CLANG_BUILTIN t "__builtin_expect") (CWISS_IS_GCC t)).

(** [false] and [true] are [0] and [1]. *)
Definition CWISS_LIKELY (t : toolchain) (cond_ : Z) : Z :=
  if hint_uses_builtin t then __builtin_expect (c_or 0 cond_) 1
  else cond_.

Definition CWISS_UNLIKELY (t : toolchain) (cond_ : Z) : Z :=
  if hint_uses_builtin t then __builtin_expect (c_or 0 cond_) 0
  else cond_.

(** ** Atomic support (lines 35-50) *)

Inductive memory_order :=
| memory_order_relaxed
| memory_order_consume
| memory_order_acquire
| memory_order_release
| memory_order_acq_rel
| memory_order_seq_cst.

(** The integer type handed to [CWISS_ATOMIC_T]: its width in bits and
    whether it is signed. *)
Record int_type := {
  bits : Z;
  is_signed : bool
}.

(** The value of type [ty] that an integer is reduced to: modulo [2^bits]
    for an unsigned type, and two's complement with silent wrap-around for a
    signed one, which is what the atomic arithmetic operations of C11 and
    C++11 specify. *)
Definition wrap (ty : int_type) (z : Z) : Z :=
  if is_signed ty
  then (z + 2 ^ (bits ty - 1)) mod 2 ^ bits ty - 2 ^ (bits ty - 1)
  else z mod 2 ^ bits ty.

(** C11 [atomic_fetch_add_explicit(&obj, arg, order)], one indivisible
    read-modify-write on the object: the value read, and the value stored.
    The order constrains how other memory accesses are seen around the
    operation, not the operation itself. *)
Definition atomic_fetch_add_explicit (ty : int_type) (obj arg : Z)
    (order : memory_order) : Z * Z :=
  (obj, wrap ty (obj + arg)).

(** C++11 [obj.fetch_add(arg, order)] on a [std::atomic]. *)
Definition fetch_add (ty : int_type) (obj arg : Z)
    (order : memory_order) : Z * Z :=
  (obj, wrap ty (obj + arg)).

(** [CWISS_ATOMIC_INC(val_)] on a [CWISS_ATOMIC_T(ty)]: the value of the
    expression, and the new content of [val_]. *)
Definition CWISS_ATOMIC_INC (t : toolchain) (ty : int_type) (val_ : Z) : Z * Z :=
  if defined t "__cplusplus"
  then fetch_add ty val_ 1 memory_order_relaxed
  else atomic_fetch_add_explicit ty val_ 1 memory_order_relaxed.

(** A thread that still has [pending] invocations of [CWISS_ATOMIC_INC] to
    make on the shared counter, and has [observed] the values of the ones it
    made. *)
Record thread := Thread {
  pending : nat;
  observed : list Z
}.

(** The shared counter and the threads that increment it. *)
Record system := System {
  counter : Z;
  threads : list thread
}.

(** Thread [i] makes its next invocation; [None] when there is no such
    thread or it has none left. *)
Definition fire (t : toolchain) (ty : int_type) (i : nat) (s : system) : option system :=
  match threads s !! i with
  | Some (Thread (S k) obs) =>
      let r := CWISS_ATOMIC_INC t ty (counter s) in
      Some {| counter := r.2;
              threads := <[i := Thread k (obs ++ [r.1])]> (threads s) |}
  | _ => None
  end.

(** An interleaving of the threads is the list of thread indices in the
    order in which their invocations take effect. *)
Fixpoint run (t : toolchain) (ty : int_type) (schedule : list nat) (s : system) : option system :=
  match schedule with
  | [] => Some s
  | i :: rest => s' ← fire t ty i s; run t ty rest s'
  end.

(** The invocations still to be made, over all threads. *)
Definition invocations (ths : list thread) : nat :=
  sum_list (pending <$> ths).

(** Every thread has made all its invocations. *)
Definition finished (ths : list thread) : Prop :=
  Forall (fun th => pending th = O) ths.

(** Threads that have not started: [ns] gives how many invocations each is
    going to make. *)
Definition spawn (ns : list nat) : list thread :=
  (fun n => Thread n []) <$> ns.

(** The schedule that lets each thread run to its end before the next. *)
Fixpoint one_by_one (i : nat) (ns : list nat) : list nat :=
  match ns with
  | [] => []
  | n :: ns' => replicate n i ++ one_by_one (S i) ns'
  end.

(** The least and greatest value of an integer type. *)
Definition int_min (ty : int_type) : Z :=
  if is_signed ty then - 2 ^ (bits ty - 1) else 0.

Definition int_max (ty : int_type) : Z :=
  if is_signed ty then 2 ^ (bits ty - 1) - 1 else 2 ^ bits ty - 1.

Definition representable (ty : int_type) (z : Z) : Prop :=
  int_min ty ≤ z ≤ int_max ty.

(** ** Sample toolchains and programs *)

Definition gcc13 : toolchain :=
  {| predefined := {[ "__GNUC__" := 13 ]};
     has_builtin := None; has_attribute := None |}.

Definition clang_cl : toolchain :=
  {| predefined := {[ "__clang__" := 1; "_MSC_VER" := 1930 ]};
     has_builtin := Some (fun _ => true); has_attribute := Some (fun _ => true) |}.

Definition msvc19 : toolchain :=
  {| predefined := {[ "_MSC_VER" := 1930; "_M_X64" := 100 ]};
     has_builtin := None; has_attribute := None |}.

(** GCC for a target with SSSE3 (so [__SSE2__] and [__SSSE3__] are
    predefined), built with [-DCWISS_HAVE_SSE2=0]. *)
Definition gcc13_ssse3_no_sse2 : toolchain :=
  {| predefined :=
       {[ "__GNUC__" := 13; "__SSE2__" := 1; "__SSSE3__" := 1;
          "CWISS_HAVE_SSE2" := 0 ]};
     has_builtin := None; has_attribute := None |}.

(** The same target with both flags overridden to false. *)
Definition gcc13_no_simd : toolchain :=
  {| predefined :=
       {[ "__GNUC__" := 13; "__SSE2__" := 1; "__SSSE3__" := 1;
          "CWISS_HAVE_SSE2" := 0; "CWISS_HAVE_SSSE3" := 0 ]};
     has_builtin := None; has_attribute := None |}.

(** GCC with [-DNDEBUG]. *)
Definition gcc13_release : toolchain :=
  {| predefined := {[ "__GNUC__" := 13; "NDEBUG" := 1 ]};
     has_builtin := None; has_attribute := None |}.

(** A program whose memory is one integer variable [n]; the condition
    [++n > 0] over a non-negative [n] changes it and is true. *)
Definition bump_counter : M Z Z :=
  fun w => Returned 1 {| memory := memory w + 1; stderr := stderr w |}.

(** The condition [n < 0] and the message ["boom"]. *)
Definition counter_negative : M Z Z :=
  fun w => Returned (c_bool (memory w <? 0)) w.

Definition boom : M Z (string * list printf_arg) :=
  mret ("boom", []).

(** The text the claim expects first on the stream when a check at line
    [line] of [file] fails. *)
Definition failure_header (file : string) (line : Z) : string :=
  String.append "CWISS_CHECK failed at "
    (String.append file (String.append ":" (String.append (pretty line) LF))).

(** A C library formats the header of a failed check as the C standard says
    for [%s] and [%d], and a lone line feed as itself, without touching the
    memory. *)
Definition formats_header {mem : Type} (libc : formatter mem) : Prop :=
  (∀ (file : string) (line : Z) (m : mem),
     libc (String.append "CWISS_CHECK failed at %s:%d" LF)
       [ArgStr file; ArgInt line] m
     = Some (failure_header file line, m))
  ∧ (∀ m : mem, libc LF [] m = Some (LF, m)).

(** The C library that formats with [format] and leaves the memory alone. *)
Definition sample_libc {mem : Type} : formatter mem :=
  fun fmt args m => (fun text => (text, m)) <$> format fmt args.

(** The messages ["v=%x"] with [255] and ["%zu of %s"] with [3] and a
    string. *)
Definition hex_message : M Z (string * list printf_arg) :=
  mret ("v=%x", [ArgInt 255]).

Definition size_message : M Z (string * list printf_arg) :=
  mret ("%zu of %s", [ArgInt 3; ArgStr "slots"]).


(** Integer types for the counter, and a C++ toolchain. *)
Definition uint64 : int_type := {| bits := 64; is_signed := false |}.
Definition uint8 : int_type := {| bits := 8; is_signed := false |}.
Definition int8 : int_type := {| bits := 8; is_signed := true |}.

Definition gxx13 : toolchain :=
  {| predefined := {[ "__GNUC__" := 13; "__cplusplus" := 201703 ]};
     has_builtin := None; has_attribute := None |}.

(** ** Linkage markers (lines 40-41, 48-49) *)

(** What stands between the markers, as far as linkage goes: the opening and
    the closing of a C language-linkage block, and declarations. *)
Inductive decl_token :=
| Extern_C_open
| Brace_close
| Declaration (name : string).

Definition CWISS_BEGIN_EXTERN_ (t : toolchain) : list decl_token :=
  if defined t "__cplusplus" then [Extern_C_open] else [].

Definition CWISS_END_EXTERN_ (t : toolchain) : list decl_token :=
  if defined t "__cplusplus" then [Brace_close] else [].

Inductive linkage :=
| C_linkage
| Cxx_linkage.

(** The linkage of a declaration outside every linkage block. *)
Definition default_linkage (t : toolchain) : linkage :=
  if defined t "__cplusplus" then Cxx_linkage else C_linkage.

(** The declarations of a token sequence with the linkage each one gets;
    [enclosing] are the linkage blocks that are open, innermost first.  A
    linkage block is C++ syntax, and a closing brace needs an open block:
    otherwise the translation unit is ill-formed, [None]. *)
Fixpoint declare (t : toolchain) (enclosing : list linkage)
    (tokens : list decl_token) : option (list (string * linkage)) :=
  match tokens with
  | [] => match enclosing with [] => Some [] | _ :: _ => None end
  | Extern_C_open :: rest =>
      if defined t "__cplusplus" then declare t (C_linkage :: enclosing) rest
      else None
  | Brace_close :: rest =>
      match enclosing with
      | [] => None
      | _ :: outer => declare t outer rest
      end
  | Declaration name :: rest =>
      cons (name, default (default_linkage t) (head enclosing))
        <$> declare t enclosing rest
  end.

(** ** Warning control (lines 81-89) *)

Inductive pragma :=
| GCC_diagnostic_push
| GCC_diagnostic_ignored (warning : string)
| GCC_diagnostic_pop.

Definition CWISS_BEGIN_ (t : toolchain) : list pragma :=
  if truth (CWISS_IS_GCCISH t)
  then [GCC_diagnostic_push; GCC_diagnostic_ignored "-Wunused-function"]
  else [].

Definition CWISS_END_ (t : toolchain) : list pragma :=
  if truth (CWISS_IS_GCCISH t) then [GCC_diagnostic_pop] else [].

(** The compiler's diagnostic state: the warnings it ignores at this point of
    the file and the states saved by the pushes that are still open. *)
Record diagnostics := Diagnostics {
  ignored : gset string;
  saved : list (gset string)
}.

(** One diagnostic pragma, as GCC and Clang document them; a pop without a
    push restores what the command line asked for. *)
Definition diagnostic (command_line : gset string) (d : diagnostics)
    (p : pragma) : diagnostics :=
  match p with
  | GCC_diagnostic_push =>
      {| ignored := ignored d; saved := ignored d :: saved d |}
  | GCC_diagnostic_ignored warning =>
      {| ignored := {[ warning ]} ∪ ignored d; saved := saved d |}
  | GCC_diagnostic_pop =>
      match saved d with
      | [] => {| ignored := command_line; saved := [] |}
      | s :: outer => {| ignored := s; saved := outer |}
      end
  end.

(** How a file wraps its definitions: not at all, or in a
    [CWISS_BEGIN_] ... [CWISS_END_] region that holds a wrapped part itself
    and is followed by another. *)
Inductive regions :=
| No_region
| Region (inside after : regions).

Fixpoint region_pragmas (t : toolchain) (r : regions) : list pragma :=
  match r with
  | No_region => []
  | Region inside after =>
      CWISS_BEGIN_ t ++ region_pragmas t inside ++ CWISS_END_ t
        ++ region_pragmas t after
  end.

(** ** Annotations (lines 151-153, 188-200) *)

(** [CWISS_THREAD_LOCAL] is defined on one branch only: [None] where the
    header leaves the name undefined. *)
Definition CWISS_THREAD_LOCAL (t : toolchain) : option (list string) :=
  if truth (CWISS_IS_GCCISH t) then Some ["__thread"] else None.

Definition CWISS_ALWAYS_INLINE (t : toolchain) : list string :=
  if truth (CWISS_HAVE_GCC_ATTRIBUTE t "always_inline")
  then ["__attribute__((always_inline))"] else [].

Definition CWISS_NOINLINE (t : toolchain) : list string :=
  if truth (CWISS_HAVE_GCC_ATTRIBUTE t "noinline")
  then ["__attribute__((noinline))"] else [].

(** ** Prefetch (lines 204-211) *)

(** The condition of the [#if] on line 204. *)
Definition prefetch_uses_builtin (t : toolchain) : bool :=
  truth (c_or (CWISS_HAVE_CLANG_BUILTIN t "__builtin_prefetch") (CWISS_IS_GCC t)).

Definition CWISS_HAVE_PREFETCH (t : toolchain) : Z :=
  if prefetch_uses_builtin t then 1 else 0.

(** [__builtin_prefetch(addr, rw, locality)] asks for a cache line; it
    changes nothing the program can read and does not fault. *)
Definition __builtin_prefetch {mem : Type} (addr rw locality : Z) : M mem unit :=
  mret tt.

(** [CWISS_PREFETCH(addr_, locality_)]: the address is an expression of the
    caller; the locality has to be an integer constant for the builtin. *)
Definition CWISS_PREFETCH {mem : Type} (t : toolchain)
    (addr_ : M mem Z) (locality_ : Z) : M mem unit :=
  if prefetch_uses_builtin t
  then addr ← addr_; __builtin_prefetch addr 0 locality_
  else mret tt.

(** ** What the invocations of the atomic increment see *)

(** The values of all invocations made so far, thread after thread. *)
Definition all_observed (ths : list thread) : list Z :=
  concat (observed <$> ths).

(** The first [n] values a counter of type [ty] goes through from [c]. *)
Definition counted (ty : int_type) (c : Z) (n : nat) : list Z :=
  (fun j : nat => wrap ty (c + Z.of_nat j)) <$> seq 0 n.

(** ** More sample toolchains *)

(** A compiler the header knows nothing about: no identity macro and no
    feature-test operator. *)
Definition unknown_cc : toolchain :=
  {| predefined := ∅; has_builtin := None; has_attribute := None |}.

Definition clang17 : toolchain :=
  {| predefined := {[ "__clang__" := 1; "__GNUC__" := 4; "__SSE2__" := 1 ]};
     has_builtin := Some (fun _ => true);
     has_attribute := Some (fun _ => true) |}.

(** GCC for a target with SSSE3, nothing overridden. *)
Definition gcc13_ssse3 : toolchain :=
  {| predefined := {[ "__GNUC__" := 13; "__SSE2__" := 1; "__SSSE3__" := 1 ]};
     has_builtin := None; has_attribute := None |}.

(** 32-bit MSVC with [/arch:SSE2]. *)
Definition msvc19_x86 : toolchain :=
  {| predefined := {[ "_MSC_VER" := 1930; "_M_IX86" := 600; "_M_IX86_FP" := 2 ]};
     has_builtin := None; has_attribute := None |}.

(** The address expression [p++] over a memory that is the pointer [p]. *)
Definition post_increment : M Z Z :=
  fun w => Returned (memory w) {| memory := memory w + 1; stderr := stderr w |}.

(** * Properties *)

(** ** C's truth values *)

Lemma truth_c_bool (b : bool) : truth (c_bool b) = b.
Proof. by destruct b. Qed.

Lemma c_bool_truth (z : Z) : c_bool (truth z) = if decide (z = 0) then 0 else 1.
Proof.
  unfold truth. case_decide as Hz.
  - by rewrite Hz.
  - apply Z.eqb_neq in Hz. by rewrite Hz.
Qed.

Lemma c_or_false_l (z : Z) : c_or 0 z = c_bool (truth z).
Proof. reflexivity. Qed.

(** ** Compiler identity *)

Lemma truth_CWISS_IS_CLANG (t : toolchain) :
  truth (CWISS_IS_CLANG t) = defined t "__clang__".
Proof. unfold CWISS_IS_CLANG. by destruct (defined t "__clang__"). Qed.

Lemma truth_CWISS_IS_GCCISH (t : toolchain) :
  truth (CWISS_IS_GCCISH t) = defined t "__GNUC__".
Proof. unfold CWISS_IS_GCCISH. by destruct (defined t "__GNUC__"). Qed.

Lemma truth_CWISS_IS_MSVCISH (t : toolchain) :
  truth (CWISS_IS_MSVCISH t) = defined t "_MSC_VER".
Proof. unfold CWISS_IS_MSVCISH. by destruct (defined t "_MSC_VER"). Qed.

(** The three flags of the claim, as a function of which identity macros are
    defined. *)
Lemma identity_flags (t : toolchain) :
  [CWISS_IS_CLANG t; CWISS_IS_GCC t; CWISS_IS_MSVC t] =
  [c_bool (defined t "__clang__");
   c_bool (defined t "__GNUC__" && negb (defined t "__clang__"));
   c_bool (defined t "_MSC_VER" && negb (defined t "__clang__"))].
Proof.
  unfold CWISS_IS_GCC, CWISS_IS_MSVC, CWISS_IS_GCCISH, CWISS_IS_MSVCISH,
    CWISS_IS_CLANG.
  by destruct (defined t "__clang__"), (defined t "__GNUC__"),
    (defined t "_MSC_VER").
Qed.

(** Exactly one of the three is true precisely for the documented compilers:
    with no identity macro at all every flag is false, and with both family
    macros but no [__clang__] both strict flags are true. *)
Lemma exactly_one_iff_recognised (t : toolchain) :
  count_true [CWISS_IS_CLANG t; CWISS_IS_GCC t; CWISS_IS_MSVC t] = 1%nat
  ↔ is_Some (recognise t).
Proof.
  rewrite identity_flags. unfold recognise.
  destruct (defined t "__clang__"), (defined t "__GNUC__"),
    (defined t "_MSC_VER"); vm_compute; split;
    first [by eauto | intros [? ?]; discriminate | discriminate].
Qed.

(** C1: for every toolchain, strict GCC is (GCC family and not Clang) and
    strict MSVC is (MSVC family and not Clang), where the families and Clang
    are read off [__GNUC__], [_MSC_VER] and [__clang__]; under Clang, in
    whatever compatibility mode, neither strict flag is set; and for each of
    the documented compilers exactly one of Clang, strict GCC and strict MSVC
    is true. *)
Theorem compiler_identity (t : toolchain) :
  CWISS_IS_GCC t
    = c_bool (truth (CWISS_IS_GCCISH t) && negb (truth (CWISS_IS_CLANG t)))
  ∧ CWISS_IS_MSVC t
    = c_bool (truth (CWISS_IS_MSVCISH t) && negb (truth (CWISS_IS_CLANG t)))
  ∧ truth (CWISS_IS_CLANG t) = defined t "__clang__"
  ∧ truth (CWISS_IS_GCCISH t) = defined t "__GNUC__"
  ∧ truth (CWISS_IS_MSVCISH t) = defined t "_MSC_VER"
  ∧ (defined t "__clang__" = true →
       truth (CWISS_IS_GCC t) = false ∧ truth (CWISS_IS_MSVC t) = false)
  ∧ (∀ c : compiler, recognise t = Some c →
       count_true [CWISS_IS_CLANG t; CWISS_IS_GCC t; CWISS_IS_MSVC t] = 1%nat).
Proof.
  split_and!;
    [unfold CWISS_IS_GCC, c_and, c_not; by rewrite truth_c_bool
    | unfold CWISS_IS_MSVC, c_and, c_not; by rewrite truth_c_bool
    | apply truth_CWISS_IS_CLANG
    | apply truth_CWISS_IS_GCCISH | apply truth_CWISS_IS_MSVCISH | | ].
  - intros Hclang.
    pose proof (identity_flags t) as Hflags. rewrite Hclang in Hflags.
    injection Hflags as _ -> ->. by rewrite !andb_false_r.
  - intros c. rewrite identity_flags. unfold recognise.
    by destruct (defined t "__clang__"), (defined t "__GNUC__"),
      (defined t "_MSC_VER").
Qed.

Lemma compiler_identity_witness :
  recognise clang_cl = Some (Clang false true)
  ∧ truth (CWISS_IS_GCC clang_cl) = false
  ∧ truth (CWISS_IS_MSVC clang_cl) = false
  ∧ count_true
      [CWISS_IS_CLANG clang_cl; CWISS_IS_GCC clang_cl; CWISS_IS_MSVC clang_cl]
    = 1%nat.
Proof.
  destruct (compiler_identity clang_cl) as (_ & _ & _ & _ & _ & Hclang & Hone).
  split; [reflexivity |].
  split; [apply Hclang; reflexivity |].
  split; [apply Hclang; reflexivity |].
  apply (Hone (Clang false true)). reflexivity.
Defined.

(** ** Instruction-set flags *)

Lemma truth_c_not (z : Z) : truth (c_not z) = negb (truth z).
Proof. apply truth_c_bool. Qed.

(** When is the header rejected: exactly when SSSE3 is claimed without
    SSE2. *)
Lemma base_h_halts_iff (t : toolchain) (d : string) :
  base_h t = Halted d ↔
  truth (CWISS_HAVE_SSSE3 t) = true ∧ truth (CWISS_HAVE_SSE2 t) = false
  ∧ d = "Bad configuration: SSSE3 implies SSE2!".
Proof.
  unfold base_h. rewrite truth_c_not.
  destruct (truth (CWISS_HAVE_SSSE3 t)), (truth (CWISS_HAVE_SSE2 t)); simpl;
    split; try (intros (? & ? & ?)); try intros ?; try congruence; eauto.
  by simplify_eq.
Qed.

(** A header that was read to its end has SSE2 whenever it has SSSE3, and
    has pulled in each intrinsics header exactly when its flag is true. *)
Lemma base_h_preprocessed (t : toolchain) (includes : list string) :
  base_h t = Preprocessed includes →
  (truth (CWISS_HAVE_SSSE3 t) = true → truth (CWISS_HAVE_SSE2 t) = true)
  ∧ ("emmintrin.h" ∈ includes ↔ truth (CWISS_HAVE_SSE2 t) = true)
  ∧ ("tmmintrin.h" ∈ includes ↔ truth (CWISS_HAVE_SSSE3 t) = true).
Proof.
  unfold base_h. rewrite truth_c_not.
  destruct (truth (CWISS_HAVE_SSSE3 t)), (truth (CWISS_HAVE_SSE2 t)),
    (defined t "__cplusplus"); simpl; intros [= <-];
    (split; [done |]); split; split; try done;
    rewrite ?elem_of_cons, elem_of_nil; intros H; by intuition.
Qed.

(** C2: whenever [CWISS_HAVE_SSSE3] is true while [CWISS_HAVE_SSE2] is false,
    preprocessing the header stops at the [#error] directive with its
    diagnostic; it never runs to the end. *)
Theorem ssse3_without_sse2_halts (t : toolchain) :
  truth (CWISS_HAVE_SSSE3 t) = true →
  truth (CWISS_HAVE_SSE2 t) = false →
  base_h t = Halted "Bad configuration: SSSE3 implies SSE2!"
  ∧ ∀ includes, base_h t ≠ Preprocessed includes.
Proof.
  intros H3 H2.
  assert (base_h t = Halted "Bad configuration: SSSE3 implies SSE2!") as ->
    by by apply base_h_halts_iff.
  split; [done | congruence].
Qed.

Lemma ssse3_without_sse2_halts_witness :
  base_h gcc13_ssse3_no_sse2 = Halted "Bad configuration: SSSE3 implies SSE2!"
  ∧ ∀ includes, base_h gcc13_ssse3_no_sse2 ≠ Preprocessed includes.
Proof.
  apply (ssse3_without_sse2_halts gcc13_ssse3_no_sse2); reflexivity.
Defined.

(** Without an override the flags are what detection gives. *)
Lemma CWISS_HAVE_SSE2_detected (t : toolchain) :
  predefined t !! "CWISS_HAVE_SSE2" = None →
  CWISS_HAVE_SSE2 t = detect_SSE2 t.
Proof.
  intros Hnone. unfold detect_SSE2.
  rewrite delete_id by done. by destruct t.
Qed.

Lemma CWISS_HAVE_SSSE3_detected (t : toolchain) :
  predefined t !! "CWISS_HAVE_SSSE3" = None →
  CWISS_HAVE_SSSE3 t = detect_SSSE3 t.
Proof.
  intros Hnone. unfold detect_SSSE3.
  rewrite delete_id by done. by destruct t.
Qed.

(** C5: a capability flag defined before the header is read keeps exactly
    that value, whatever detection would have found; in particular a flag
    defined as [0] reads false where detection gives true. *)
Theorem override_takes_precedence (t : toolchain) (v : Z) :
  (predefined t !! "CWISS_HAVE_SSE2" = Some v →
     CWISS_HAVE_SSE2 t = v
     ∧ (v = 0 → truth (detect_SSE2 t) = true →
          truth (CWISS_HAVE_SSE2 t) = false))
  ∧ (predefined t !! "CWISS_HAVE_SSSE3" = Some v →
     CWISS_HAVE_SSSE3 t = v
     ∧ (v = 0 → truth (detect_SSSE3 t) = true →
          truth (CWISS_HAVE_SSSE3 t) = false)).
Proof.
  split; intros Hv.
  - assert (CWISS_HAVE_SSE2 t = v) as ->
      by (unfold CWISS_HAVE_SSE2; by rewrite Hv).
    split; [done | by intros ->].
  - assert (CWISS_HAVE_SSSE3 t = v) as ->
      by (unfold CWISS_HAVE_SSSE3; by rewrite Hv).
    split; [done | by intros ->].
Qed.

Lemma override_takes_precedence_witness :
  (truth (detect_SSE2 gcc13_no_simd) = true
   ∧ truth (CWISS_HAVE_SSE2 gcc13_no_simd) = false)
  ∧ (truth (detect_SSSE3 gcc13_no_simd) = true
     ∧ truth (CWISS_HAVE_SSSE3 gcc13_no_simd) = false).
Proof.
  destruct (override_takes_precedence gcc13_no_simd 0) as [Hsse2 Hssse3].
  split; (split; [reflexivity |]).
  - apply Hsse2; reflexivity.
  - apply Hssse3; reflexivity.
Defined.

(** ** Branch-prediction hints *)

(** C8: on every toolchain, whichever branch of the [#if] defines them, the
    hints applied to a boolean have the value of that boolean. *)
Theorem hints_preserve_booleans (t : toolchain) (b : bool) :
  CWISS_LIKELY t (c_bool b) = c_bool b
  ∧ CWISS_UNLIKELY t (c_bool b) = c_bool b.
Proof.
  unfold CWISS_LIKELY, CWISS_UNLIKELY, __builtin_expect.
  rewrite c_or_false_l, truth_c_bool.
  by destruct (hint_uses_builtin t).
Qed.

(** C10: where [__builtin_expect] is used, the hints applied to an integer
    give its truth value, [1] for nonzero and [0] for zero; on the fallback
    they give the integer itself.  So an integer other than [0] and [1] is
    changed by the hints on the first kind of toolchain, and only there. *)
Theorem hints_booleanize (t : toolchain) (e : Z) :
  (hint_uses_builtin t = true →
     CWISS_LIKELY t e = (if decide (e = 0) then 0 else 1)
     ∧ CWISS_UNLIKELY t e = (if decide (e = 0) then 0 else 1)
     ∧ (e ≠ 0 → e ≠ 1 → CWISS_LIKELY t e ≠ e ∧ CWISS_UNLIKELY t e ≠ e))
  ∧ (hint_uses_builtin t = false →
     CWISS_LIKELY t e = e ∧ CWISS_UNLIKELY t e = e).
Proof.
  unfold CWISS_LIKELY, CWISS_UNLIKELY, __builtin_expect.
  rewrite c_or_false_l, c_bool_truth.
  split; intros ->; [| done].
  split_and!; [done | done |].
  intros H0 H1. by case_decide.
Qed.

Lemma hints_booleanize_witness :
  (CWISS_LIKELY gcc13 5 = 1 ∧ CWISS_UNLIKELY gcc13 5 = 1
   ∧ CWISS_LIKELY gcc13 5 ≠ 5 ∧ CWISS_UNLIKELY gcc13 5 ≠ 5)
  ∧ (CWISS_LIKELY msvc19 5 = 5 ∧ CWISS_UNLIKELY msvc19 5 = 5).
Proof.
  destruct (hints_booleanize gcc13 5) as [Hbuiltin _].
  destruct (hints_booleanize msvc19 5) as [_ Hfallback].
  destruct (Hbuiltin eq_refl) as (Hl & Hu & Hne).
  destruct Hne as [Hnl Hnu]; [lia | lia |].
  split; [| apply Hfallback; reflexivity].
  split_and!; [exact Hl | exact Hu | exact Hnl | exact Hnu].
Defined.

(** ** Checks *)

Section Diagnostics.

Variable mem : Type.
Variable libc : formatter mem.
Implicit Types w : world mem.

Lemma bind_Returned {A B : Type} (m : M mem A) (k : A → M mem B) w a w' :
  m w = Returned a w' → (m ≫= k) w = k a w'.
Proof. unfold mbind, M_bind, bind. by intros ->. Qed.

Lemma format_header (file : string) (line : Z) :
  format (String.append "CWISS_CHECK failed at %s:%d" LF)
    [ArgStr file; ArgInt line]
  = Some (failure_header file line).
Proof. reflexivity. Qed.

Lemma format_LF (args : list printf_arg) : format LF args = Some LF.
Proof. reflexivity. Qed.

Lemma fprintf_stderr_Returned (fmt text : string) (args : list printf_arg)
    (m : mem) w :
  libc fmt args (memory w) = Some (text, m) →
  fprintf_stderr libc fmt args w
  = Returned (Z.of_nat (String.length text))
      {| memory := m; stderr := stderr w ++ [Write text] |}.
Proof. unfold fprintf_stderr. by intros ->. Qed.

Lemma fprintf_stderr_header (file : string) (line : Z) w :
  formats_header libc →
  fprintf_stderr libc (String.append "CWISS_CHECK failed at %s:%d" LF)
    [ArgStr file; ArgInt line] w
  = Returned (Z.of_nat (String.length (failure_header file line)))
      (emit (Write (failure_header file line)) w).
Proof.
  intros [Hheader _].
  by rewrite (fprintf_stderr_Returned _ _ _ _ _ (Hheader file line (memory w))).
Qed.

Lemma fprintf_stderr_LF w :
  formats_header libc →
  fprintf_stderr libc LF [] w
  = Returned (Z.of_nat (String.length LF)) (emit (Write LF) w).
Proof.
  intros [_ Hlf].
  by rewrite (fprintf_stderr_Returned _ _ _ _ _ (Hlf (memory w))).
Qed.

(** C3: with any C library that formats the header as the standard says,
    when the condition evaluates to false the check writes the header with
    the file and line of the call, evaluates the caller's message and writes
    it as the library formats it, whatever conversions it uses, writes a
    line feed, flushes, and the process ends in [abort()]: the outcome is
    [Aborted], never a return, and nothing that follows the check is
    executed. *)
Theorem fatal_check_fails (file : string) (line : Z)
    (cond_ : M mem Z) (va_args : M mem (string * list printf_arg))
    w w1 w2 (c : Z) (fmt text : string) (args : list printf_arg) (m : mem) :
  formats_header libc →
  cond_ w = Returned c w1 →
  truth c = false →
  va_args (emit (Write (failure_header file line)) w1)
    = Returned (fmt, args) w2 →
  libc fmt args (memory w2) = Some (text, m) →
  CWISS_CHECK libc file line cond_ va_args w
  = Aborted {| memory := m;
               stderr := stderr w2 ++ [Write text; Write LF; Flush] |}
  ∧ ∀ (B : Type) (rest : unit → M mem B),
      (CWISS_CHECK libc file line cond_ va_args ≫= rest) w
      = Aborted {| memory := m;
                   stderr := stderr w2 ++ [Write text; Write LF; Flush] |}.
Proof.
  intros Hlibc Hcond Hc Hva Hfmt.
  enough (CWISS_CHECK libc file line cond_ va_args w
          = Aborted {| memory := m;
                       stderr := stderr w2 ++ [Write text; Write LF; Flush] |})
    as Habort.
  { split; [done |]. intros B rest.
    unfold mbind at 1, M_bind at 1, bind at 1. by rewrite Habort. }
  unfold CWISS_CHECK.
  rewrite (bind_Returned _ _ _ _ _ Hcond), Hc.
  rewrite (bind_Returned _ _ _ _ _ (fprintf_stderr_header file line _ Hlibc)).
  rewrite (bind_Returned _ _ _ _ _ Hva).
  rewrite (bind_Returned _ _ _ _ _ (fprintf_stderr_Returned _ _ _ _ _ Hfmt)).
  rewrite (bind_Returned _ _ _ _ _ (fprintf_stderr_LF _ Hlibc)).
  unfold mbind, M_bind, bind, fflush_stderr, abort, emit. simpl.
  by rewrite <- !app_assoc.
Qed.

(** C4: when the condition evaluates to true, the check returns and leaves
    the world as the evaluation of the condition left it: nothing is
    written, the message is not evaluated.  The expansion of [CWISS_CHECK]
    is outside the [#ifdef NDEBUG] of the header and takes nothing from the
    toolchain, so this holds whether or not [NDEBUG] is defined. *)
Theorem fatal_check_passes (file : string) (line : Z)
    (cond_ : M mem Z) (va_args : M mem (string * list printf_arg))
    w w1 (c : Z) :
  cond_ w = Returned c w1 →
  truth c = true →
  CWISS_CHECK libc file line cond_ va_args w = Returned () w1.
Proof.
  intros Hcond Hc. unfold CWISS_CHECK.
  by rewrite (bind_Returned _ _ _ _ _ Hcond), Hc.
Qed.

(** C6: under [NDEBUG] an invocation of [CWISS_DCHECK] returns with the
    world untouched whatever its condition and message would do if they
    were evaluated, and so does any number of invocations in a row. *)
Theorem debug_check_disabled (t : toolchain) (file : string) (line : Z)
    (cond_ : M mem Z) (va_args : M mem (string * list printf_arg)) w :
  defined t "NDEBUG" = true →
  CWISS_DCHECK libc t file line cond_ va_args w = Returned () w
  ∧ ∀ n : nat,
      repeat_stmt n (CWISS_DCHECK libc t file line cond_ va_args) w
      = Returned () w.
Proof.
  intros Hndebug. unfold CWISS_DCHECK. rewrite Hndebug.
  split; [done |]. induction n as [| n IH]; [done |].
  simpl. by erewrite bind_Returned.
Qed.

(** C7: without [NDEBUG], [CWISS_DCHECK] is [CWISS_CHECK]: the same outcome
    in every world, for every condition and message. *)
Theorem debug_check_enabled (t : toolchain) (file : string) (line : Z)
    (cond_ : M mem Z) (va_args : M mem (string * list printf_arg)) w :
  defined t "NDEBUG" = false →
  CWISS_DCHECK libc t file line cond_ va_args w
  = CWISS_CHECK libc file line cond_ va_args w.
Proof. intros Hdebug. unfold CWISS_DCHECK. by rewrite Hdebug. Qed.

End Diagnostics.

Lemma formats_header_sample_libc (mem : Type) :
  formats_header (sample_libc (mem := mem)).
Proof. split; intros; reflexivity. Qed.

Lemma fatal_check_fails_witness :
  CWISS_CHECK sample_libc "table.c" 42 counter_negative boom (World 7 [])
  = Aborted {| memory := 7;
               stderr := [Write (failure_header "table.c" 42)]
                         ++ [Write "boom"; Write LF; Flush] |}
  ∧ CWISS_CHECK sample_libc "table.c" 43 counter_negative hex_message
      (World 7 [])
    = Aborted {| memory := 7;
                 stderr := [Write (failure_header "table.c" 43)]
                           ++ [Write "v=ff"; Write LF; Flush] |}
  ∧ CWISS_CHECK sample_libc "table.c" 44 counter_negative size_message
      (World 7 [])
    = Aborted {| memory := 7;
                 stderr := [Write (failure_header "table.c" 44)]
                           ++ [Write "3 of slots"; Write LF; Flush] |}.
Proof.
  assert (formats_header (sample_libc (mem := Z))) as Hlibc
    by (split; intros; reflexivity).
  split; [| split].
  - apply (fatal_check_fails Z sample_libc "table.c" 42 counter_negative boom
             (World 7 []) (World 7 [])
             (World 7 [Write (failure_header "table.c" 42)]) 0
             "boom" "boom" [] 7); [exact Hlibc | reflexivity ..].
  - apply (fatal_check_fails Z sample_libc "table.c" 43 counter_negative
             hex_message (World 7 []) (World 7 [])
             (World 7 [Write (failure_header "table.c" 43)]) 0
             "v=%x" "v=ff" [ArgInt 255] 7); [exact Hlibc | reflexivity ..].
  - apply (fatal_check_fails Z sample_libc "table.c" 44 counter_negative
             size_message (World 7 []) (World 7 [])
             (World 7 [Write (failure_header "table.c" 44)]) 0
             "%zu of %s" "3 of slots" [ArgInt 3; ArgStr "slots"] 7);
      [exact Hlibc | reflexivity ..].
Defined.

Lemma fatal_check_passes_witness :
  CWISS_CHECK sample_libc "table.c" 42 bump_counter boom (World 7 [])
  = Returned () (World 8 []).
Proof.
  apply (fatal_check_passes Z sample_libc "table.c" 42 bump_counter boom
           (World 7 []) (World 8 []) 1); reflexivity.
Defined.

Lemma debug_check_disabled_witness :
  CWISS_DCHECK sample_libc gcc13_release "table.c" 42 bump_counter boom
    (World 7 [])
  = Returned () (World 7 [])
  ∧ ∀ n : nat,
      repeat_stmt n
        (CWISS_DCHECK sample_libc gcc13_release "table.c" 42 bump_counter boom)
        (World 7 [])
      = Returned () (World 7 []).
Proof.
  apply (debug_check_disabled Z sample_libc gcc13_release "table.c" 42
           bump_counter boom (World 7 [])); reflexivity.
Defined.

Lemma debug_check_enabled_witness :
  CWISS_DCHECK sample_libc gcc13 "table.c" 42 counter_negative boom (World 7 [])
  = CWISS_CHECK sample_libc "table.c" 42 counter_negative boom (World 7 []).
Proof.
  apply (debug_check_enabled Z sample_libc gcc13 "table.c" 42 counter_negative
           boom (World 7 [])); reflexivity.
Defined.

(** The stream after the failed check of the witness, as text. *)
Example fatal_check_output :
  written [Write (failure_header "table.c" 42); Write "boom"; Write LF; Flush]
  = String.append "CWISS_CHECK failed at table.c:42"
      (String.append LF (String.append "boom" LF)).
Proof. reflexivity. Qed.

(** Without [NDEBUG] the condition of a debug check is evaluated each time. *)
Example debug_check_enabled_evaluates :
  repeat_stmt 3
    (CWISS_DCHECK sample_libc gcc13 "table.c" 42 bump_counter boom)
    (World 7 [])
  = Returned () (World 10 []).
Proof. reflexivity. Qed.

(** ** Atomic increment *)

Section Wrap.

Variable ty : int_type.
Hypothesis bits_pos : 0 < bits ty.

Lemma pow2_bits : 2 ^ bits ty = 2 * 2 ^ (bits ty - 1).
Proof.
  replace (bits ty) with (Z.succ (bits ty - 1)) at 1 by lia.
  apply Z.pow_succ_r. lia.
Qed.

Lemma pow2_half_pos : 0 < 2 ^ (bits ty - 1).
Proof. apply Z.pow_pos_nonneg; lia. Qed.

Lemma wrap_representable (z : Z) : representable ty (wrap ty z).
Proof.
  unfold representable, int_min, int_max, wrap.
  pose proof pow2_bits. pose proof pow2_half_pos.
  destruct (is_signed ty).
  - pose proof (Z.mod_pos_bound (z + 2 ^ (bits ty - 1)) (2 ^ bits ty)). lia.
  - pose proof (Z.mod_pos_bound z (2 ^ bits ty)). lia.
Qed.

Lemma wrap_id (z : Z) : representable ty z → wrap ty z = z.
Proof.
  unfold representable, int_min, int_max, wrap.
  pose proof pow2_bits. pose proof pow2_half_pos.
  destruct (is_signed ty); intros Hz.
  - rewrite Z.mod_small by lia. lia.
  - apply Z.mod_small. lia.
Qed.

Lemma wrap_add_l (a b : Z) : wrap ty (wrap ty a + b) = wrap ty (a + b).
Proof.
  unfold wrap. destruct (is_signed ty).
  - f_equal.
    replace ((a + 2 ^ (bits ty - 1)) mod 2 ^ bits ty - 2 ^ (bits ty - 1)
             + b + 2 ^ (bits ty - 1))
      with ((a + 2 ^ (bits ty - 1)) mod 2 ^ bits ty + b) by lia.
    rewrite Zplus_mod_idemp_l. f_equal. lia.
  - apply Zplus_mod_idemp_l.
Qed.

End Wrap.

Lemma CWISS_ATOMIC_INC_eq (t : toolchain) (ty : int_type) (c : Z) :
  CWISS_ATOMIC_INC t ty c = (c, wrap ty (c + 1)).
Proof. unfold CWISS_ATOMIC_INC. by destruct (defined t "__cplusplus"). Qed.

Lemma invocations_insert (ths : list thread) (i : nat) (th th' : thread) :
  ths !! i = Some th →
  (invocations (<[i:=th']> ths) + pending th = invocations ths + pending th')%nat.
Proof.
  unfold invocations. revert i.
  induction ths as [| th0 ths IH]; intros [| i] Hi; simplify_eq/=.
  - lia.
  - specialize (IH i Hi). lia.
Qed.

Lemma invocations_spawn (ns : list nat) : invocations (spawn ns) = sum_list ns.
Proof.
  unfold invocations, spawn. induction ns as [| n ns IH]; [done |].
  simpl in *. by f_equal.
Qed.

Lemma finished_invocations (ths : list thread) :
  finished ths → invocations ths = O.
Proof.
  unfold finished, invocations.
  induction 1 as [| th ths Hth _ IH]; [done |].
  change (sum_list (pending <$> th :: ths))
    with (pending th + sum_list (pending <$> ths))%nat.
  by rewrite Hth, IH.
Qed.

(** One invocation taking effect: the counter moves by one within the type,
    and one invocation fewer is left. *)
Lemma fire_Some (t : toolchain) (ty : int_type) (i : nat) (s s' : system) :
  fire t ty i s = Some s' →
  counter s' = wrap ty (counter s + 1)
  ∧ S (invocations (threads s')) = invocations (threads s).
Proof.
  unfold fire. rewrite CWISS_ATOMIC_INC_eq.
  destruct (threads s !! i) as [[[| k] obs] |] eqn:Hi; try done.
  intros [= <-]. simpl. split; [done |].
  pose proof (invocations_insert _ _ _ (Thread k (obs ++ [counter s])) Hi).
  simpl in *. lia.
Qed.

(** Along any interleaving, the counter plus the invocations still to come
    is constant within the type, and every step of the schedule is one
    invocation. *)
Lemma run_invariant (t : toolchain) (ty : int_type) (schedule : list nat) :
  0 < bits ty →
  ∀ s s', run t ty schedule s = Some s' →
    wrap ty (counter s' + Z.of_nat (invocations (threads s')))
    = wrap ty (counter s + Z.of_nat (invocations (threads s)))
    ∧ (length schedule + invocations (threads s') = invocations (threads s))%nat
    ∧ (representable ty (counter s) → representable ty (counter s')).
Proof.
  intros Hbits. induction schedule as [| i rest IH]; intros s s' Hrun.
  - by simplify_eq/=.
  - simpl in Hrun. destruct (fire t ty i s) as [s1 |] eqn:Hfire; [| done].
    simpl in Hrun. destruct (fire_Some _ _ _ _ _ Hfire) as [Hc Hn].
    destruct (IH _ _ Hrun) as (Hsum & Hlen & Hrep).
    split_and!.
    + rewrite Hsum, Hc, wrap_add_l by done. f_equal. lia.
    + simpl. lia.
    + intros _. apply Hrep. rewrite Hc. by apply wrap_representable.
Qed.

Lemma run_app (t : toolchain) (ty : int_type) (sch1 sch2 : list nat) (s : system) :
  run t ty (sch1 ++ sch2) s = run t ty sch1 s ≫= run t ty sch2.
Proof.
  revert s. induction sch1 as [| i sch1 IH]; intros s; [done |].
  simpl. destruct (fire t ty i s) as [s1 |]; [apply IH | done].
Qed.

(** A thread can always make the invocations it has left, one after the
    other. *)
Lemma run_own_thread (t : toolchain) (ty : int_type) (n : nat) :
  ∀ (c : Z) (before after : list thread) (obs : list Z),
    ∃ (c' : Z) (obs' : list Z),
      run t ty (replicate n (length before))
        (System c (before ++ Thread n obs :: after))
      = Some (System c' (before ++ Thread O obs' :: after)).
Proof.
  induction n as [| n IH]; intros c before after obs; [by eauto |].
  destruct (IH (wrap ty (c + 1)) before after (obs ++ [c])) as (c' & obs' & Hrun).
  exists c', obs'. simpl. unfold fire at 1. simpl.
  rewrite list_lookup_middle by done. simpl.
  rewrite CWISS_ATOMIC_INC_eq. simpl.
  by rewrite insert_app_r_alt, Nat.sub_diag by lia.
Qed.

(** The threads can all run to their end from whatever point they have
    reached: the interleaving that serves them one by one does it. *)
Lemma one_by_one_finishes (t : toolchain) (ty : int_type) (ths : list thread) :
  ∀ (c : Z) (before : list thread),
    finished before →
    ∃ s', run t ty (one_by_one (length before) (pending <$> ths))
            (System c (before ++ ths)) = Some s'
          ∧ finished (threads s').
Proof.
  induction ths as [| [n obs] ths IH]; intros c before Hbefore.
  - exists (System c (before ++ [])). split; [done |].
    simpl. by rewrite app_nil_r.
  - destruct (run_own_thread t ty n c before ths obs) as (c' & obs' & Hn).
    destruct (IH c' (before ++ [Thread O obs'])) as (s' & Hrun & Hfin).
    { apply Forall_app. split; [done |]. by apply Forall_singleton. }
    exists s'. split; [| done].
    change (pending <$> Thread n obs :: ths) with (n :: (pending <$> ths)).
    simpl. rewrite run_app, Hn. simpl.
    rewrite length_app, Nat.add_1_r, <- app_assoc in Hrun. exact Hrun.
Qed.

(** No interleaving gets stuck before every thread is done. *)
Lemma run_can_finish (t : toolchain) (ty : int_type) (schedule : list nat)
    (s s1 : system) :
  run t ty schedule s = Some s1 →
  ∃ rest s', run t ty (schedule ++ rest) s = Some s' ∧ finished (threads s').
Proof.
  intros Hrun.
  destruct (one_by_one_finishes t ty (threads s1) (counter s1) [])
    as (s' & Hrest & Hfin); [by constructor |].
  exists (one_by_one 0 (pending <$> threads s1)), s'.
  split; [| done]. rewrite run_app, Hrun. simpl.
  by destruct s1.
Qed.

(** C9, as the code has it: the threads can make all their invocations, and
    however these interleave, once every thread has made its own the counter
    holds the initial value plus the number of invocations, reduced to the
    counter's integer type; that is exactly the initial value plus the number
    of invocations whenever this sum is representable in the type.  The
    interleaving has one step per invocation, and all of this is so for the C
    and for the C++ definition of [CWISS_ATOMIC_INC]. *)
Theorem atomic_inc_total (t : toolchain) (ty : int_type) (c0 : Z)
    (ns : list nat) :
  0 < bits ty →
  representable ty c0 →
  (∃ (schedule : list nat) (s' : system),
      run t ty schedule (System c0 (spawn ns)) = Some s'
      ∧ finished (threads s'))
  ∧ (∀ (schedule : list nat) (s' : system),
      run t ty schedule (System c0 (spawn ns)) = Some s' →
      finished (threads s') →
      counter s' = wrap ty (c0 + Z.of_nat (sum_list ns))
      ∧ (representable ty (c0 + Z.of_nat (sum_list ns)) →
           counter s' = c0 + Z.of_nat (sum_list ns))
      ∧ length schedule = sum_list ns).
Proof.
  intros Hbits Hc0. split.
  - destruct (run_can_finish t ty [] (System c0 (spawn ns)) _ eq_refl)
      as (rest & s' & Hrun & Hfin).
    by exists rest, s'.
  - intros schedule s' Hrun Hfin.
    destruct (run_invariant t ty schedule Hbits _ _ Hrun) as (Hsum & Hlen & Hrep).
    simpl in Hsum, Hlen, Hrep.
    rewrite (finished_invocations _ Hfin), invocations_spawn in Hsum, Hlen.
    rewrite Z.add_0_r, (wrap_id ty Hbits _ (Hrep Hc0)) in Hsum.
    split_and!.
    + exact Hsum.
    + intros Hfits. by rewrite Hsum, wrap_id.
    + lia.
Qed.

Lemma atomic_inc_total_witness :
  (counter (System 3 [Thread 0 [254; 0]; Thread 0 [255; 1; 2]])
   = wrap uint8 (254 + Z.of_nat (sum_list [2; 3]%nat)))
  ∧ (counter (System 15 [Thread 0 [10; 12]; Thread 0 [11; 13; 14]])
     = 10 + Z.of_nat (sum_list [2; 3]%nat)).
Proof.
  assert (representable uint8 254) as H254
    by (vm_compute; intuition discriminate).
  assert (representable uint64 10) as H10
    by (vm_compute; intuition discriminate).
  destruct (atomic_inc_total gcc13 uint8 254 [2; 3]%nat eq_refl H254)
    as [_ Hc].
  destruct (atomic_inc_total gxx13 uint64 10 [2; 3]%nat eq_refl H10)
    as [_ Hcxx].
  split.
  - apply (Hc [0; 1; 0; 1; 1]%nat
             (System 3 [Thread 0 [254; 0]; Thread 0 [255; 1; 2]]));
      [reflexivity | repeat constructor].
  - apply (Hcxx [0; 1; 0; 1; 1]%nat
             (System 15 [Thread 0 [10; 12]; Thread 0 [11; 13; 14]]));
      [reflexivity | repeat constructor | vm_compute; intuition discriminate].
Defined.

(** C9 as it is worded fails where the counter wraps: a 64-bit unsigned
    counter at its greatest value, incremented once by one thread, holds [0],
    not one more than before. *)
Lemma atomic_inc_wraps :
  representable uint64 18446744073709551615
  ∧ run gcc13 uint64 [0%nat] (System 18446744073709551615 (spawn [1%nat]))
    = Some (System 0 [Thread 0 [18446744073709551615]])
  ∧ finished (threads (System 0 [Thread 0 [18446744073709551615]]))
  ∧ counter (System 0 [Thread 0 [18446744073709551615]])
    ≠ 18446744073709551615 + Z.of_nat (sum_list [1%nat]).
Proof.
  split_and!.
  - vm_compute. intuition discriminate.
  - reflexivity.
  - repeat constructor.
  - discriminate.
Qed.

(** A signed counter wraps too, in two's complement: an 8-bit one at [127],
    incremented once from C++, holds [-128]. *)
Example signed_counter_wraps :
  run gxx13 int8 [0%nat] (System 127 (spawn [1%nat]))
  = Some (System (-128) [Thread 0 [127]]).
Proof. reflexivity. Qed.

(** * Further properties of the header *)

(** ** Acceptance and the headers pulled in *)

Lemma base_h_cases (t : toolchain) :
  base_h t =
  if truth (CWISS_HAVE_SSSE3 t) && negb (truth (CWISS_HAVE_SSE2 t))
  then Halted "Bad configuration: SSSE3 implies SSE2!"
  else Preprocessed
         (["stdbool.h"; "stdio.h"; "stdlib.h"]
          ++ [if defined t "__cplusplus" then "atomic" else "stdatomic.h"]
          ++ (if truth (CWISS_HAVE_SSE2 t) then ["emmintrin.h"] else [])
          ++ (if truth (CWISS_HAVE_SSSE3 t) then ["tmmintrin.h"] else [])).
Proof.
  unfold base_h. rewrite truth_c_not.
  by destruct (truth (CWISS_HAVE_SSSE3 t)), (truth (CWISS_HAVE_SSE2 t)),
    (defined t "__cplusplus"); simpl; rewrite ?app_nil_r.
Qed.

(** X1: the [#error] directive of line 123 fires exactly when SSSE3 is true
    and SSE2 is false, wherever the two values come from, detection or
    override; its diagnostic is the only one the header issues.  ([Halted]
    is the outcome of that directive; whether the system headers exist is
    outside this model.) *)
Theorem error_directive_iff (t : toolchain) :
  (∀ d, base_h t = Halted d → d = "Bad configuration: SSSE3 implies SSE2!")
  ∧ ((∃ d, base_h t = Halted d)
     ↔ truth (CWISS_HAVE_SSSE3 t) = true ∧ truth (CWISS_HAVE_SSE2 t) = false).
Proof.
  rewrite base_h_cases.
  destruct (truth (CWISS_HAVE_SSSE3 t)), (truth (CWISS_HAVE_SSE2 t)); simpl.
  - split; [by intros d [=] |]. split; [by intros [d [=]] | by intros [_ [=]]].
  - split; [by intros d [= <-] |]. split; [done | eauto].
  - split; [by intros d [=] |]. split; [by intros [d [=]] | by intros [[=] _]].
  - split; [by intros d [=] |]. split; [by intros [d [=]] | by intros [[=] _]].
Qed.

Lemma error_directive_iff_witness :
  (∃ d, base_h gcc13_ssse3_no_sse2 = Halted d)
  ∧ ¬ (∃ d, base_h gcc13_ssse3 = Halted d).
Proof.
  destruct (error_directive_iff gcc13_ssse3_no_sse2) as [_ Hfires].
  destruct (error_directive_iff gcc13_ssse3) as [_ Hpasses].
  split.
  - apply Hfires. split; reflexivity.
  - intros H. apply Hpasses in H. destruct H as [_ H]. discriminate H.
Defined.

(** X2: a header that is read to its end has pulled in, in this order, the
    three standard headers, the atomics header of the language ([<atomic>]
    for C++, [<stdatomic.h>] for C), [<emmintrin.h>] exactly when SSE2 is on
    and [<tmmintrin.h>] exactly when SSSE3 is on. *)
Theorem header_includes (t : toolchain) (includes : list string) :
  base_h t = Preprocessed includes →
  includes
  = ["stdbool.h"; "stdio.h"; "stdlib.h"]
    ++ [if defined t "__cplusplus" then "atomic" else "stdatomic.h"]
    ++ (if truth (CWISS_HAVE_SSE2 t) then ["emmintrin.h"] else [])
    ++ (if truth (CWISS_HAVE_SSSE3 t) then ["tmmintrin.h"] else [])
  ∧ ("emmintrin.h" ∈ includes ↔ truth (CWISS_HAVE_SSE2 t) = true)
  ∧ ("tmmintrin.h" ∈ includes ↔ truth (CWISS_HAVE_SSSE3 t) = true)
  ∧ ("atomic" ∈ includes ↔ defined t "__cplusplus" = true)
  ∧ ("stdatomic.h" ∈ includes ↔ defined t "__cplusplus" = false).
Proof.
  rewrite base_h_cases.
  destruct (truth (CWISS_HAVE_SSSE3 t)), (truth (CWISS_HAVE_SSE2 t)),
    (defined t "__cplusplus"); simpl; intros [= <-];
    (split; [done |]); split_and!; split; try done;
    rewrite ?elem_of_cons, elem_of_nil; intros H; by intuition.
Qed.

Lemma header_includes_witness :
  ["stdbool.h"; "stdio.h"; "stdlib.h"; "atomic"]
  = ["stdbool.h"; "stdio.h"; "stdlib.h"]
    ++ [if defined gxx13 "__cplusplus" then "atomic" else "stdatomic.h"]
    ++ (if truth (CWISS_HAVE_SSE2 gxx13) then ["emmintrin.h"] else [])
    ++ (if truth (CWISS_HAVE_SSSE3 gxx13) then ["tmmintrin.h"] else []).
Proof.
  apply (header_includes gxx13 ["stdbool.h"; "stdio.h"; "stdlib.h"; "atomic"]).
  reflexivity.
Defined.

(** ** Detection *)

Lemma defined_None (t : toolchain) (x : string) :
  defined t x = false ↔ predefined t !! x = None.
Proof.
  unfold defined. destruct (predefined t !! x) as [v |] eqn:Hx.
  - split; [| done]. intros Hd. apply bool_decide_eq_false in Hd.
    destruct Hd. by eexists.
  - split; [done |]. intros _. apply bool_decide_eq_false. by intros [? ?].
Qed.

(** X3: without overrides the flags are [0] or [1]; SSE2 is on exactly when
    [__SSE2__] is predefined or, in the MSVC family only, the target is x64
    or is x86 with [_M_IX86_FP] at least [2] (a missing [_M_IX86_FP] counts
    as [0]); SSSE3 is on exactly when [__SSSE3__] is predefined. *)
Theorem simd_detection (t : toolchain) :
  (predefined t !! "CWISS_HAVE_SSE2" = None →
     CWISS_HAVE_SSE2 t
     = c_bool (defined t "__SSE2__"
               || defined t "_MSC_VER"
                  && (defined t "_M_X64"
                      || defined t "_M_IX86" && (2 <=? ident t "_M_IX86_FP"))))
  ∧ (predefined t !! "CWISS_HAVE_SSSE3" = None →
     CWISS_HAVE_SSSE3 t = c_bool (defined t "__SSSE3__")).
Proof.
  split; intros Hnone.
  - unfold CWISS_HAVE_SSE2. rewrite Hnone.
    unfold c_or, c_and, c_ge.
    rewrite !truth_c_bool, truth_CWISS_IS_MSVCISH, ?truth_c_bool.
    by destruct (_ || _).
  - unfold CWISS_HAVE_SSSE3. by rewrite Hnone.
Qed.

Lemma simd_detection_witness :
  CWISS_HAVE_SSE2 msvc19_x86 = 1 ∧ CWISS_HAVE_SSSE3 msvc19_x86 = 0.
Proof.
  destruct (simd_detection msvc19_x86) as [Hsse2 Hssse3].
  split; [apply Hsse2 | apply Hssse3]; reflexivity.
Defined.

(** X4: left to detection, the header is never rejected on a toolchain that
    predefines [__SSE2__] whenever it predefines [__SSSE3__]. *)
Theorem detection_never_rejected (t : toolchain) :
  predefined t !! "CWISS_HAVE_SSE2" = None →
  predefined t !! "CWISS_HAVE_SSSE3" = None →
  (defined t "__SSSE3__" = true → defined t "__SSE2__" = true) →
  ∃ includes, base_h t = Preprocessed includes.
Proof.
  intros H2 H3 Himp. rewrite base_h_cases.
  unfold CWISS_HAVE_SSSE3 at 1. rewrite H3.
  destruct (defined t "__SSSE3__") eqn:Hd3; simpl.
  - unfold CWISS_HAVE_SSE2 at 1. rewrite H2.
    unfold c_or at 1. rewrite truth_c_bool, (Himp eq_refl). simpl. eauto.
  - eauto.
Qed.

Lemma detection_never_rejected_witness :
  ∃ includes, base_h gcc13_ssse3 = Preprocessed includes.
Proof.
  apply (detection_never_rejected gcc13_ssse3);
    [reflexivity | reflexivity | intros _; reflexivity].
Defined.

(** ** Which toolchains get the builtins *)

Lemma truth_CWISS_IS_GCC (t : toolchain) :
  truth (CWISS_IS_GCC t) = defined t "__GNUC__" && negb (defined t "__clang__").
Proof.
  unfold CWISS_IS_GCC, c_and.
  by rewrite truth_c_bool, truth_c_not, truth_CWISS_IS_GCCISH,
    truth_CWISS_IS_CLANG.
Qed.

Lemma builtin_condition (t : toolchain) (x : string) :
  truth (c_or (CWISS_HAVE_CLANG_BUILTIN t x) (CWISS_IS_GCC t))
  = match has_builtin t with Some has => has x | None => false end
    || defined t "__GNUC__" && negb (defined t "__clang__").
Proof.
  unfold c_or. rewrite truth_c_bool, truth_CWISS_IS_GCC.
  unfold CWISS_HAVE_CLANG_BUILTIN.
  destruct (has_builtin t) as [has |]; [by rewrite truth_c_bool | done].
Qed.

Lemma builtins_by_toolchain_aux (t : toolchain) :
  truth (CWISS_IS_GCC t) = false →
  has_builtin t = None →
  hint_uses_builtin t = false ∧ CWISS_HAVE_PREFETCH t = 0.
Proof.
  unfold CWISS_HAVE_PREFETCH, prefetch_uses_builtin, hint_uses_builtin.
  rewrite !builtin_condition, truth_CWISS_IS_GCC. by intros -> ->.
Qed.

(** X5: strict GCC gets [__builtin_expect] and [__builtin_prefetch] whether
    or not it has [__has_builtin]; every other toolchain gets each builtin
    exactly when its [__has_builtin] reports it, and never when it has no
    [__has_builtin]. *)
Theorem builtins_by_toolchain (t : toolchain) :
  (truth (CWISS_IS_GCC t) = true →
     hint_uses_builtin t = true ∧ CWISS_HAVE_PREFETCH t = 1)
  ∧ (truth (CWISS_IS_GCC t) = false →
     ∀ has, has_builtin t = Some has →
       hint_uses_builtin t = has "__builtin_expect"
       ∧ CWISS_HAVE_PREFETCH t = c_bool (has "__builtin_prefetch"))
  ∧ (truth (CWISS_IS_GCC t) = false →
     has_builtin t = None →
     hint_uses_builtin t = false ∧ CWISS_HAVE_PREFETCH t = 0).
Proof.
  unfold CWISS_HAVE_PREFETCH, prefetch_uses_builtin, hint_uses_builtin.
  rewrite !builtin_condition, truth_CWISS_IS_GCC.
  split_and!.
  - intros ->. by rewrite !orb_true_r.
  - intros -> has ->. rewrite !orb_false_r. split; [done |].
    by destruct (has "__builtin_prefetch").
  - by intros -> ->.
Qed.

Lemma builtins_by_toolchain_witness :
  (hint_uses_builtin gcc13 = true ∧ CWISS_HAVE_PREFETCH gcc13 = 1)
  ∧ (hint_uses_builtin clang17 = true ∧ CWISS_HAVE_PREFETCH clang17 = 1)
  ∧ (hint_uses_builtin msvc19 = false ∧ CWISS_HAVE_PREFETCH msvc19 = 0).
Proof.
  split; [| split].
  - apply (builtins_by_toolchain gcc13). reflexivity.
  - destruct (builtins_by_toolchain clang17) as (_ & Hhas & _).
    apply (Hhas eq_refl (fun _ => true)). reflexivity.
  - destruct (builtins_by_toolchain msvc19) as (_ & _ & Hnone).
    apply Hnone; reflexivity.
Defined.

(** X6: outside the GCC family and without feature-test operators (MSVC, or
    a compiler the header does not know) nothing is an error but everything
    is degraded: the warning-control and inlining macros expand to nothing,
    the hints are the bare expression, prefetch is reported absent, and
    [CWISS_THREAD_LOCAL] is left undefined.  When [__clang__] and [_MSC_VER]
    are missing too, all five compiler flags are [0]. *)
Theorem outside_gcc_family_degrades (t : toolchain) :
  defined t "__GNUC__" = false →
  has_builtin t = None →
  has_attribute t = None →
  CWISS_IS_GCCISH t = 0 ∧ CWISS_IS_GCC t = 0
  ∧ CWISS_BEGIN_ t = [] ∧ CWISS_END_ t = []
  ∧ CWISS_ALWAYS_INLINE t = [] ∧ CWISS_NOINLINE t = []
  ∧ (∀ e, CWISS_LIKELY t e = e ∧ CWISS_UNLIKELY t e = e)
  ∧ CWISS_HAVE_PREFETCH t = 0
  ∧ CWISS_THREAD_LOCAL t = None
  ∧ (defined t "__clang__" = false → defined t "_MSC_VER" = false →
     [CWISS_IS_CLANG t; CWISS_IS_GCCISH t; CWISS_IS_MSVCISH t;
      CWISS_IS_GCC t; CWISS_IS_MSVC t] = [0; 0; 0; 0; 0]).
Proof.
  intros Hgnu Hbuiltin Hattr.
  assert (CWISS_IS_GCCISH t = 0) as Hgccish
    by (unfold CWISS_IS_GCCISH; by rewrite Hgnu).
  assert (truth (CWISS_IS_GCC t) = false) as Hgcc
    by (by rewrite truth_CWISS_IS_GCC, Hgnu).
  destruct (builtins_by_toolchain_aux t Hgcc Hbuiltin) as [Hhint Hprefetch].
  split_and!.
  - exact Hgccish.
  - unfold CWISS_IS_GCC. by rewrite Hgccish.
  - unfold CWISS_BEGIN_. by rewrite Hgccish.
  - unfold CWISS_END_. by rewrite Hgccish.
  - unfold CWISS_ALWAYS_INLINE, CWISS_HAVE_GCC_ATTRIBUTE. by rewrite Hattr.
  - unfold CWISS_NOINLINE, CWISS_HAVE_GCC_ATTRIBUTE. by rewrite Hattr.
  - intros e. unfold CWISS_LIKELY, CWISS_UNLIKELY. by rewrite Hhint.
  - exact Hprefetch.
  - unfold CWISS_THREAD_LOCAL. by rewrite Hgccish.
  - intros Hclang Hmsc.
    unfold CWISS_IS_GCC, CWISS_IS_MSVC, CWISS_IS_CLANG, CWISS_IS_GCCISH,
      CWISS_IS_MSVCISH. by rewrite Hclang, Hgnu, Hmsc.
Qed.

Lemma outside_gcc_family_degrades_witness :
  (CWISS_THREAD_LOCAL msvc19 = None ∧ CWISS_HAVE_PREFETCH msvc19 = 0
   ∧ CWISS_BEGIN_ msvc19 = [] ∧ CWISS_ALWAYS_INLINE msvc19 = [])
  ∧ [CWISS_IS_CLANG unknown_cc; CWISS_IS_GCCISH unknown_cc;
     CWISS_IS_MSVCISH unknown_cc; CWISS_IS_GCC unknown_cc;
     CWISS_IS_MSVC unknown_cc] = [0; 0; 0; 0; 0].
Proof.
  destruct (outside_gcc_family_degrades msvc19 eq_refl eq_refl eq_refl)
    as (_ & _ & Hbegin & _ & Hinline & _ & _ & Hprefetch & Hthread & _).
  destruct (outside_gcc_family_degrades unknown_cc eq_refl eq_refl eq_refl)
    as (_ & _ & _ & _ & _ & _ & _ & _ & _ & Hflags).
  split; [by split_and! |].
  apply Hflags; reflexivity.
Defined.

(** X14: on every toolchain the hints keep the truth value of any integer,
    so a branch on a hinted expression goes the way the bare expression
    would send it; the two hints give the same value, and applying a hint to
    a hinted value changes nothing further. *)
Theorem hints_preserve_truth (t : toolchain) (e : Z) :
  truth (CWISS_LIKELY t e) = truth e
  ∧ truth (CWISS_UNLIKELY t e) = truth e
  ∧ CWISS_LIKELY t e = CWISS_UNLIKELY t e
  ∧ CWISS_LIKELY t (CWISS_LIKELY t e) = CWISS_LIKELY t e
  ∧ CWISS_UNLIKELY t (CWISS_UNLIKELY t e) = CWISS_UNLIKELY t e.
Proof.
  unfold CWISS_LIKELY, CWISS_UNLIKELY, __builtin_expect.
  rewrite !c_or_false_l.
  destruct (hint_uses_builtin t); [| done].
  by rewrite ?c_or_false_l, ?truth_c_bool.
Qed.

(** ** Prefetch and checks in a running program *)

Section Statements.

Variable mem : Type.
Variable libc : formatter mem.
Implicit Types w : world mem.

(** X7: with the builtin, [CWISS_PREFETCH] evaluates its address expression
    once and changes nothing else; on the fallback the address expression is
    not evaluated at all, so its side effects do not happen. *)
Theorem prefetch_evaluates_address (t : toolchain) (addr_ : M mem Z)
    (locality_ : Z) w :
  (prefetch_uses_builtin t = true →
     ∀ (a : Z) w', addr_ w = Returned a w' →
       CWISS_PREFETCH t addr_ locality_ w = Returned () w')
  ∧ (prefetch_uses_builtin t = false →
     CWISS_PREFETCH t addr_ locality_ w = Returned () w).
Proof.
  unfold CWISS_PREFETCH. split; intros ->; [| done].
  intros a w' Haddr. by rewrite (bind_Returned _ _ _ _ _ _ Haddr).
Qed.

Lemma fatal_check_returns_aux (file : string) (line : Z)
    (cond_ : M mem Z) (va_args : M mem (string * list printf_arg))
    w w1 (c : Z) :
  cond_ w = Returned c w1 →
  truth c = true →
  CWISS_CHECK libc file line cond_ va_args w = Returned () w1.
Proof.
  intros Hcond Hc. unfold CWISS_CHECK.
  by rewrite (bind_Returned _ _ _ _ _ _ Hcond), Hc.
Qed.

(** A failed condition never lets the rest of the expansion return. *)
Lemma CWISS_CHECK_failure_not_returned (file : string) (line : Z)
    (cond_ : M mem Z) (va_args : M mem (string * list printf_arg))
    w w1 w' (c : Z) (u : unit) :
  cond_ w = Returned c w1 →
  truth c = false →
  CWISS_CHECK libc file line cond_ va_args w ≠ Returned u w'.
Proof.
  intros Hcond Hc. unfold CWISS_CHECK.
  rewrite (bind_Returned _ _ _ _ _ _ Hcond), Hc.
  unfold mbind, M_bind, bind, fprintf_stderr, fflush_stderr, abort.
  destruct (libc _ _ (memory w1)) as [[header m1] |]; [| done].
  destruct (va_args _) as [[fmt args] w2 | w2 |]; [| done | done].
  destruct (libc fmt args (memory w2)) as [[text m2] |]; [| done].
  simpl. by destruct (libc LF [] m2) as [[lf m3] |].
Qed.

(** X8: [CWISS_CHECK] returns only when its condition was evaluated and was
    true, and then in the world that evaluation left: what follows a check in
    the program runs under the checked condition or not at all. *)
Theorem check_returns_iff (file : string) (line : Z)
    (cond_ : M mem Z) (va_args : M mem (string * list printf_arg)) w w' :
  CWISS_CHECK libc file line cond_ va_args w = Returned () w'
  ↔ ∃ c : Z, cond_ w = Returned c w' ∧ truth c = true.
Proof.
  split.
  - intros Hret. destruct (cond_ w) as [c w1 | w1 |] eqn:Hcond.
    + destruct (truth c) eqn:Hc.
      * rewrite (fatal_check_returns_aux file line cond_ va_args _ _ _ Hcond Hc)
          in Hret.
        injection Hret as <-. eauto.
      * by destruct (CWISS_CHECK_failure_not_returned file line cond_ va_args
                       _ _ w' _ () Hcond Hc).
    + unfold CWISS_CHECK, mbind, M_bind, bind in Hret. by rewrite Hcond in Hret.
    + unfold CWISS_CHECK, mbind, M_bind, bind in Hret. by rewrite Hcond in Hret.
  - intros (c & Hcond & Hc).
    by apply (fatal_check_returns_aux file line cond_ va_args _ _ _ Hcond Hc).
Qed.

(** X9: when the condition is true in every world, [n] checks in a row
    return after evaluating it [n] times, each in the world the one before
    left; debug checks do the same without [NDEBUG] and leave the world
    untouched with it, so a condition with side effects makes debug and
    release builds diverge. *)
Theorem repeated_checks (t : toolchain) (file : string) (line : Z)
    (cond_ : M mem Z) (va_args : M mem (string * list printf_arg))
    (value : world mem → Z) (effect : world mem → world mem) :
  (∀ w, cond_ w = Returned (value w) (effect w)) →
  (∀ w, truth (value w) = true) →
  ∀ (n : nat) w,
    repeat_stmt n (CWISS_CHECK libc file line cond_ va_args) w
    = Returned () (Nat.iter n effect w)
    ∧ repeat_stmt n (CWISS_DCHECK libc t file line cond_ va_args) w
      = Returned () (if defined t "NDEBUG" then w else Nat.iter n effect w).
Proof.
  intros Hcond Htrue.
  assert (∀ n w, repeat_stmt n (CWISS_CHECK libc file line cond_ va_args) w
                 = Returned () (Nat.iter n effect w)) as Hcheck.
  { induction n as [| n IH]; intros w; [done |].
    simpl repeat_stmt.
    rewrite (bind_Returned _ _ _ _ _ _
               (fatal_check_returns_aux file line cond_ va_args _ _ _
                  (Hcond w) (Htrue w))).
    rewrite IH. f_equal. exact (Nat.iter_swap n _ effect w). }
  intros n w. split; [apply Hcheck |].
  unfold CWISS_DCHECK. destruct (defined t "NDEBUG"); [| apply Hcheck].
  induction n as [| n IH]; [done |].
  simpl. by erewrite bind_Returned.
Qed.

End Statements.

Lemma prefetch_evaluates_address_witness :
  CWISS_PREFETCH gcc13 post_increment 1 (World 7 []) = Returned () (World 8 [])
  ∧ CWISS_PREFETCH msvc19 post_increment 1 (World 7 [])
    = Returned () (World 7 []).
Proof.
  destruct (prefetch_evaluates_address Z gcc13 post_increment 1 (World 7 []))
    as [Hbuiltin _].
  destruct (prefetch_evaluates_address Z msvc19 post_increment 1 (World 7 []))
    as [_ Hfallback].
  split.
  - apply (Hbuiltin eq_refl 7 (World 8 [])). reflexivity.
  - apply Hfallback. reflexivity.
Defined.

Lemma check_returns_iff_witness :
  ∃ c : Z, bump_counter (World 7 []) = Returned c (World 8 []) ∧ truth c = true.
Proof.
  apply (check_returns_iff Z sample_libc "table.c" 42 bump_counter boom
           (World 7 []) (World 8 [])).
  reflexivity.
Defined.

Lemma repeated_checks_witness :
  repeat_stmt 5 (CWISS_CHECK sample_libc "table.c" 42 bump_counter boom)
    (World 7 [])
  = Returned () (Nat.iter 5
       (fun w => {| memory := memory w + 1; stderr := stderr w |}) (World 7 []))
  ∧ repeat_stmt 5
      (CWISS_DCHECK sample_libc gcc13_release "table.c" 42 bump_counter boom)
      (World 7 [])
    = Returned () (World 7 []).
Proof.
  apply (repeated_checks Z sample_libc gcc13_release "table.c" 42
           bump_counter boom
           (fun _ => 1)
           (fun w => {| memory := memory w + 1; stderr := stderr w |}));
    intros w; reflexivity.
Defined.

(** ** Linkage blocks *)

Lemma declare_declarations (t : toolchain) (enclosing : list linkage)
    (names : list string) (rest : list decl_token) :
  declare t enclosing ((Declaration <$> names) ++ rest)
  = app ((fun name => (name, default (default_linkage t) (head enclosing)))
           <$> names)
      <$> declare t enclosing rest.
Proof.
  induction names as [| name names IH].
  - simpl. by destruct (declare t enclosing rest).
  - change (declare t enclosing ((Declaration <$> name :: names) ++ rest))
      with (cons (name, default (default_linkage t) (head enclosing))
              <$> declare t enclosing ((Declaration <$> names) ++ rest)).
    rewrite IH. by destruct (declare t enclosing rest).
Qed.

(** X10: declarations placed between [CWISS_BEGIN_EXTERN_] and
    [CWISS_END_EXTERN_] have C linkage in C and in C++, and the declarations
    after the pair have the linkage of the language again.  A begin marker
    without its end marker makes a C++ translation unit ill-formed and goes
    unnoticed in C. *)
Theorem extern_block_linkage (t : toolchain) (names after : list string) :
  declare t []
    (CWISS_BEGIN_EXTERN_ t ++ (Declaration <$> names) ++ CWISS_END_EXTERN_ t
       ++ (Declaration <$> after))
  = Some (((fun name => (name, C_linkage)) <$> names)
          ++ ((fun name => (name, default_linkage t)) <$> after))
  ∧ declare t [] (CWISS_BEGIN_EXTERN_ t ++ (Declaration <$> names))
    = if defined t "__cplusplus" then None
      else Some ((fun name => (name, C_linkage)) <$> names).
Proof.
  unfold CWISS_BEGIN_EXTERN_, CWISS_END_EXTERN_, default_linkage.
  pose proof (declare_declarations t [] after []) as Hafter.
  rewrite app_nil_r in Hafter.
  pose proof (declare_declarations t [] names []) as Hnames.
  rewrite app_nil_r in Hnames.
  unfold default_linkage in Hafter, Hnames.
  destruct (defined t "__cplusplus") eqn:Hcxx; simpl.
  - rewrite Hcxx. split.
    + rewrite declare_declarations. simpl. rewrite Hafter. simpl.
      by rewrite app_nil_r.
    + pose proof (declare_declarations t [C_linkage] names []) as Hopen.
      rewrite app_nil_r in Hopen. by rewrite Hopen.
  - split.
    + rewrite declare_declarations, Hafter. simpl.
      unfold default_linkage. rewrite Hcxx. by rewrite app_nil_r.
    + rewrite Hnames. simpl. by rewrite app_nil_r.
Qed.

(** ** Warning-control regions *)

Lemma CWISS_BEGIN_END_restore (t : toolchain) (command_line : gset string)
    (d : diagnostics) :
  foldl (diagnostic command_line)
    (foldl (diagnostic command_line) d (CWISS_BEGIN_ t)) (CWISS_END_ t) = d.
Proof.
  unfold CWISS_BEGIN_, CWISS_END_.
  destruct (truth (CWISS_IS_GCCISH t)); [| done]. by destruct d.
Qed.

Lemma regions_restore (t : toolchain) (command_line : gset string)
    (r : regions) :
  ∀ d, foldl (diagnostic command_line) d (region_pragmas t r) = d.
Proof.
  induction r as [| inside IHinside after IHafter]; intros d; [done |].
  simpl. rewrite !foldl_app, IHinside, CWISS_BEGIN_END_restore.
  apply IHafter.
Qed.

(** X11: regions wrapped in [CWISS_BEGIN_] ... [CWISS_END_], nested and in
    sequence, leave the compiler's diagnostic state exactly as it was, so the
    suppression never leaks into the code after a region; and in the GCC
    family the unused-function warning is ignored inside a region, also after
    regions nested in it have been closed. *)
Theorem regions_restore_diagnostics (t : toolchain) (command_line : gset string)
    (r : regions) (d : diagnostics) :
  foldl (diagnostic command_line) d (region_pragmas t r) = d
  ∧ (truth (CWISS_IS_GCCISH t) = true →
     ignored (foldl (diagnostic command_line) d
                (CWISS_BEGIN_ t ++ region_pragmas t r))
     = {[ "-Wunused-function" ]} ∪ ignored d).
Proof.
  split; [apply regions_restore |].
  intros Hgcc. rewrite foldl_app, regions_restore.
  unfold CWISS_BEGIN_. by rewrite Hgcc.
Qed.

Lemma regions_restore_diagnostics_witness :
  foldl (diagnostic ∅) (Diagnostics {[ "-Wshadow" ]} [])
    (region_pragmas gcc13 (Region (Region No_region No_region) No_region))
  = Diagnostics {[ "-Wshadow" ]} []
  ∧ ignored (foldl (diagnostic ∅) (Diagnostics {[ "-Wshadow" ]} [])
               (CWISS_BEGIN_ gcc13
                  ++ region_pragmas gcc13
                       (Region (Region No_region No_region) No_region)))
    = {[ "-Wunused-function" ]} ∪ {[ "-Wshadow" ]}.
Proof.
  destruct (regions_restore_diagnostics gcc13 ∅
              (Region (Region No_region No_region) No_region)
              (Diagnostics {[ "-Wshadow" ]} [])) as [Hrestore Hinside].
  split; [exact Hrestore | apply Hinside; reflexivity].
Defined.

(** ** The values handed out by the atomic increment *)

Lemma all_observed_insert (ths : list thread) (i : nat) (n k : nat)
    (obs : list Z) (v : Z) :
  ths !! i = Some (Thread n obs) →
  all_observed (<[i := Thread k (obs ++ [v])]> ths) ≡ₚ all_observed ths ++ [v].
Proof.
  unfold all_observed. revert i.
  induction ths as [| th ths IH]; intros [| i] Hi; simplify_eq/=.
  - rewrite <- !app_assoc. f_equiv. apply Permutation_app_comm.
  - rewrite (IH i Hi). by rewrite app_assoc.
Qed.

Lemma all_observed_spawn (ns : list nat) : all_observed (spawn ns) = [].
Proof. unfold all_observed, spawn. by induction ns. Qed.

Lemma fire_observed (t : toolchain) (ty : int_type) (i : nat) (s s' : system) :
  fire t ty i s = Some s' →
  all_observed (threads s') ≡ₚ all_observed (threads s) ++ [counter s].
Proof.
  unfold fire. rewrite CWISS_ATOMIC_INC_eq.
  destruct (threads s !! i) as [[[| k] obs] |] eqn:Hi; try done.
  intros [= <-]. simpl. by eapply all_observed_insert.
Qed.

Lemma counted_S (ty : int_type) (c : Z) (n : nat) :
  0 < bits ty →
  counted ty c (S n) = wrap ty c :: counted ty (wrap ty (c + 1)) n.
Proof.
  intros Hbits. unfold counted.
  change (seq 0 (S n)) with (O :: seq 1 n).
  rewrite fmap_cons, Z.add_0_r. f_equal.
  rewrite <- fmap_S_seq, <- list_fmap_compose.
  apply list_fmap_ext. intros _ j _. simpl.
  rewrite wrap_add_l by done. f_equal. lia.
Qed.

Lemma run_observed (t : toolchain) (ty : int_type) (schedule : list nat) :
  0 < bits ty →
  ∀ s s', run t ty schedule s = Some s' →
    representable ty (counter s) →
    all_observed (threads s')
    ≡ₚ all_observed (threads s) ++ counted ty (counter s) (length schedule).
Proof.
  intros Hbits. induction schedule as [| i rest IH]; intros s s' Hrun Hrep.
  - simplify_eq/=. by rewrite app_nil_r.
  - simpl in Hrun. destruct (fire t ty i s) as [s1 |] eqn:Hfire; [| done].
    simpl in Hrun. destruct (fire_Some _ _ _ _ _ Hfire) as [Hc _].
    rewrite (IH _ _ Hrun) by (rewrite Hc; by apply wrap_representable).
    rewrite (fire_observed _ _ _ _ _ Hfire), Hc.
    change (length (i :: rest)) with (S (length rest)).
    rewrite counted_S, (wrap_id ty Hbits _ Hrep) by done.
    by rewrite <- app_assoc.
Qed.

(** Two integers less than [2^bits] apart are reduced to different values. *)
Lemma wrap_inj_near (ty : int_type) (a b : Z) :
  0 < bits ty →
  wrap ty a = wrap ty b →
  Z.abs (a - b) < 2 ^ bits ty →
  a = b.
Proof.
  intros Hbits Hwrap Hnear.
  pose proof (pow2_half_pos ty Hbits) as Hhalf.
  pose proof (pow2_bits ty Hbits) as Hpow.
  assert (∀ x y, x mod 2 ^ bits ty = y mod 2 ^ bits ty →
                 Z.abs (x - y) < 2 ^ bits ty → x = y) as Hmod.
  { intros x y Hxy Hd.
    pose proof (Z.div_mod x (2 ^ bits ty) ltac:(lia)) as Hx.
    pose proof (Z.div_mod y (2 ^ bits ty) ltac:(lia)) as Hy.
    rewrite Hxy in Hx.
    assert (x / 2 ^ bits ty = y / 2 ^ bits ty) by nia.
    congruence. }
  unfold wrap in Hwrap. destruct (is_signed ty).
  - assert (a + 2 ^ (bits ty - 1) = b + 2 ^ (bits ty - 1)); [| lia].
    apply Hmod; [lia |].
    by replace (a + 2 ^ (bits ty - 1) - (b + 2 ^ (bits ty - 1)))
      with (a - b) by lia.
  - by apply Hmod.
Qed.

Lemma counted_NoDup (ty : int_type) (c : Z) (n : nat) :
  0 < bits ty →
  Z.of_nat n ≤ 2 ^ bits ty →
  NoDup (counted ty c n).
Proof.
  intros Hbits Hn. unfold counted.
  apply NoDup_fmap_2_strong; [| apply NoDup_seq].
  intros i j Hi Hj Hij.
  apply elem_of_seq in Hi, Hj.
  apply (wrap_inj_near ty _ _ Hbits) in Hij; lia.
Qed.

(** X12: the values that the invocations of [CWISS_ATOMIC_INC] evaluate to,
    over all threads and in whatever way they interleave, are the initial
    value of the counter and its successors in the counter's type, one each;
    as long as no more than [2^bits] invocations have been made, no two
    invocations get the same value. *)
Theorem atomic_values_distinct (t : toolchain) (ty : int_type) (c0 : Z)
    (ns schedule : list nat) (s' : system) :
  0 < bits ty →
  representable ty c0 →
  run t ty schedule (System c0 (spawn ns)) = Some s' →
  all_observed (threads s') ≡ₚ counted ty c0 (length schedule)
  ∧ (Z.of_nat (length schedule) ≤ 2 ^ bits ty →
     NoDup (all_observed (threads s'))).
Proof.
  intros Hbits Hc0 Hrun.
  pose proof (run_observed t ty schedule Hbits _ _ Hrun Hc0) as Hobs.
  simpl in Hobs. rewrite all_observed_spawn in Hobs. simpl in Hobs.
  split; [done |].
  intros Hlen. rewrite Hobs. by apply counted_NoDup.
Qed.

Lemma atomic_values_distinct_witness :
  all_observed [Thread 0 [254; 0]; Thread 1 [255; 1]]
  ≡ₚ counted uint8 254 (length [0; 1; 0; 1]%nat)
  ∧ NoDup (all_observed [Thread 0 [254; 0]; Thread 1 [255; 1]]).
Proof.
  assert (representable uint8 254) as H254
    by (vm_compute; intuition discriminate).
  destruct (atomic_values_distinct gcc13 uint8 254 [2; 3]%nat [0; 1; 0; 1]%nat
              (System 2 [Thread 0 [254; 0]; Thread 1 [255; 1]])
              eq_refl H254 eq_refl) as [Hperm Hnodup].
  split; [exact Hperm |].
  apply Hnodup. vm_compute. discriminate.
Defined.

(** X13: the counter has period [2^bits]: when the threads have made a
    multiple of [2^bits] invocations in all, it holds its initial value
    again. *)
Theorem counter_period (t : toolchain) (ty : int_type) (c0 : Z)
    (ns schedule : list nat) (s' : system) (k : nat) :
  0 < bits ty →
  representable ty c0 →
  run t ty schedule (System c0 (spawn ns)) = Some s' →
  finished (threads s') →
  Z.of_nat (sum_list ns) = Z.of_nat k * 2 ^ bits ty →
  counter s' = c0.
Proof.
  intros Hbits Hc0 Hrun Hfin Hk.
  destruct (run_invariant t ty schedule Hbits _ _ Hrun) as (Hsum & _ & Hrep).
  simpl in Hsum, Hrep.
  rewrite (finished_invocations _ Hfin), invocations_spawn in Hsum.
  rewrite Z.add_0_r, (wrap_id ty Hbits _ (Hrep Hc0)), Hk in Hsum.
  rewrite Hsum. rewrite <- (wrap_id ty Hbits c0 Hc0) at 2.
  unfold wrap. destruct (is_signed ty).
  - f_equal.
    replace (c0 + Z.of_nat k * 2 ^ bits ty + 2 ^ (bits ty - 1))
      with (c0 + 2 ^ (bits ty - 1) + Z.of_nat k * 2 ^ bits ty) by lia.
    apply Z_mod_plus_full.
  - apply Z_mod_plus_full.
Qed.

Lemma counter_period_witness :
  counter (System 5 [Thread 0 (counted uint8 5 256)]) = 5.
Proof.
  apply (counter_period gcc13 uint8 5 [256%nat] (replicate 256 0%nat)
           (System 5 [Thread 0 (counted uint8 5 256)]) 1).
  - reflexivity.
  - vm_compute. intuition discriminate.
  - vm_compute. reflexivity.
  - repeat constructor.
  - reflexivity.
Defined.
